(** * CyberGithub: checkpoint cache, scan orchestration, validation pipeline

    A shallow embedding of the decision logic of the CyberGit dashboard
    (App.tsx, services/geminiService.ts, components/RepoCard.tsx) together
    with the properties its specification states about it.

    Conventions of the embedding:
    - JavaScript numbers that hold timestamps, counts and HTTP status codes
      are integers ([Z]); time values are milliseconds since the epoch.
    - JavaScript strings are [string]s whose characters are code units
      below 256.
    - An optional field ([x?: T], possibly [undefined] or [null]) is an
      [option T].
    - React state setters are modelled as direct updates of a state record;
      an [async] function is split at its [await] into the part that runs
      when it is called and the parts that run when the awaited promise
      settles. *)

From Stdlib Require Import ZArith Lia Bool List Ascii String.
From stdpp Require Import base option list gmap strings.
Import ListNotations.

Local Open Scope Z_scope.

(** ** The ECMAScript time-value arithmetic used by [Date] *)

Module JsDate.

Definition msPerHour : Z := 3600000.
Definition msPerDay : Z := 86400000.

(** ECMAScript [Day(t)] and [TimeWithinDay(t)]. *)
Definition Day (t : Z) : Z := t / msPerDay.
Definition TimeWithinDay (t : Z) : Z := t mod msPerDay.

(** [MakeTime] and [MakeDate] on integral arguments. *)
Definition MakeTime (h m s ms : Z) : Z :=
  h * msPerHour + m * 60000 + s * 1000 + ms.
Definition MakeDate (day time : Z) : Z := day * msPerDay + time.

Section LocalZone.
(** The local zone is a constant offset [tza] (in ms) from UTC; zones
    whose offset changes during the year are outside this model. *)
Variable tza : Z.

Definition LocalTime (t : Z) : Z := t + tza.
Definition UTC (t : Z) : Z := t - tza.

(** [d.setHours(h, m, s, ms)]: same local day, new time within it. *)
Definition setHours (h m s ms : Z) (t : Z) : Z :=
  UTC (MakeDate (Day (LocalTime t)) (MakeTime h m s ms)).

(** [d.setDate(d.getDate() - 1)]: the calendar fields cancel
    ([MakeDay(y, m, DateFromTime(t) - 1)] is [Day(t) - 1]), so the local
    day number drops by one and the time within the day is kept. *)
Definition setDate_previous (t : Z) : Z :=
  UTC (MakeDate (Day (LocalTime t) - 1) (TimeWithinDay (LocalTime t))).

(** The instant at which the local clock of local day [d] shows
    [h]:00:00.000. *)
Definition at_hour (d h : Z) : Z := UTC (MakeDate d (MakeTime h 0 0 0)).

End LocalZone.

End JsDate.

Import JsDate.

(** ** Checkpoint scheduler (App.tsx, [getLatestCheckpoint]) *)

Definition getLatestCheckpoint (tza now : Z) : Z :=
  let c1 := setHours tza 5 0 0 0 now in
  let c2 := setHours tza 17 0 0 0 now in
  if now <? c1 then
    let yesterday17 := setDate_previous tza now in
    setHours tza 17 0 0 0 yesterday17
  else if now <? c2 then c1
  else c2.

(** A refresh boundary: 05:00 or 17:00 local time of some day. *)
Definition is_boundary (tza b : Z) : Prop :=
  exists d, b = at_hour tza d 5 \/ b = at_hour tza d 17.

(** The local day on which [now] falls. *)
Definition today (tza now : Z) : Z := Day (LocalTime tza now).

(** The reading of C2's last clause as written: the checkpoint lies
    strictly before the current time. *)
Definition checkpoint_strictly_before_now : Prop :=
  forall tza now, getLatestCheckpoint tza now < now.

(** ** Data model (types.ts) *)

(** [TimeFrame = '3d' | '7d' | '14d']. *)
Inductive TimeFrame : Set := TF_3d | TF_7d | TF_14d.

#[global] Instance TimeFrame_eq_dec : EqDecision TimeFrame.
Proof. solve_decision. Defined.

Definition TimeFrame_code (f : TimeFrame) : nat :=
  match f with TF_3d => 0 | TF_7d => 1 | TF_14d => 2 end%nat.

Definition TimeFrame_of_code (n : nat) : TimeFrame :=
  match n with O => TF_3d | S O => TF_7d | _ => TF_14d end.

#[global] Instance TimeFrame_countable : Countable TimeFrame.
Proof.
  apply (inj_countable' TimeFrame_code TimeFrame_of_code).
  intros []; reflexivity.
Defined.

Inductive AppStatus : Set := IDLE | SCANNING | ANALYZING | COMPLETE | ERROR.

(** [Repo], with the enrichment fields that the validation pipeline merges
    in and that [RepoCard] reads. *)
Record Repo : Set := mkRepo {
  name : string;
  url : string;
  description : string;
  starsTrend : string;
  tags : list string;
  lastPushedAt : option string;
  isArchived : option bool;
  starsCount : option Z;
  language : option string;
  isRateLimited : option bool
}.

(** ** Local storage

    [localStorage] holds text under namespaced keys; each cell is modelled
    by what [JSON.parse] makes of its text, at the type the reading code
    declares for it. *)

(** A cell [CACHE_PREFIX + frame]. [CacheJson d t] is a JSON value whose
    [data] and [timestamp] properties are [d] and [t] ([None]: the property
    is missing); [CacheCorrupt text] is a text on which [JSON.parse] throws
    or whose value has no properties to read ([null]). *)
Inductive CacheBlob : Set :=
| CacheCorrupt (text : string)
| CacheJson (d : option (list Repo)) (t : option Z).

(** An element of a stored favorites array: a bare name (the old
    [string[]] format) or a full record (the current [Repo[]] format). *)
Inductive FavItem : Set :=
| FavName (s : string)
| FavRecord (r : Repo).

(** The cell [FAV_STORAGE_KEY]: an array of such elements, or a text that
    does not parse. *)
Inductive FavBlob : Set :=
| FavCorrupt (text : string)
| FavArray (items : list FavItem).

Record Storage : Type := mkStorage {
  cache : gmap TimeFrame CacheBlob;
  vault : option FavBlob
}.

(** What [loadCache] hands back: [{ data, timestamp }]. *)
Record CacheEntry : Set := mkCacheEntry {
  data : list Repo;
  timestamp : Z
}.

(** ** Application state (App.tsx) *)

(** Lines appended by [addLog]; the arguments are the interpolated values. *)
Inductive LogLine : Set :=
| LogSystemInit
| LogAwaitingCommand
| LogInterfaceReady
| LogCacheExpired (ts : Z)
| LogCacheLoaded (frame : TimeFrame)
| LogForceRefresh
| LogScanStart (frame : TimeFrame)
| LogScanDone (duration_ms : Z) (count : nat)
| LogFatal (message : string)
| LogFatalUnknown
| LogStaleRestored
| LogFavRemoved (repo_name : string)
| LogFavAdded (repo_name : string).

(** Lines written to the browser console. *)
Inductive ConsoleLine : Set :=
| ConsoleCacheLoadError
| ConsoleScanDiscarded (frame : TimeFrame)
| ConsoleError (message : string)
| ConsoleLegacyFavorites
| ConsoleFavParseError.

Record AppState : Type := mkAppState {
  activeTab : TimeFrame;
  activeTabRef : TimeFrame;
  repos : option (list Repo);
  favorites : list FavItem;
  status : AppStatus;
  logs : list LogLine;
  lastUpdated : option Z;
  console : list ConsoleLine;
  localStorage : Storage
}.

Definition setActiveTab (f : TimeFrame) (st : AppState) : AppState :=
  mkAppState f (activeTabRef st) (repos st) (favorites st) (status st)
             (logs st) (lastUpdated st) (console st) (localStorage st).
Definition set_activeTabRef (f : TimeFrame) (st : AppState) : AppState :=
  mkAppState (activeTab st) f (repos st) (favorites st) (status st)
             (logs st) (lastUpdated st) (console st) (localStorage st).
Definition setRepos (r : option (list Repo)) (st : AppState) : AppState :=
  mkAppState (activeTab st) (activeTabRef st) r (favorites st) (status st)
             (logs st) (lastUpdated st) (console st) (localStorage st).
Definition setFavorites (fs : list FavItem) (st : AppState) : AppState :=
  mkAppState (activeTab st) (activeTabRef st) (repos st) fs (status st)
             (logs st) (lastUpdated st) (console st) (localStorage st).
Definition setStatus (s : AppStatus) (st : AppState) : AppState :=
  mkAppState (activeTab st) (activeTabRef st) (repos st) (favorites st) s
             (logs st) (lastUpdated st) (console st) (localStorage st).
Definition addLog (msg : LogLine) (st : AppState) : AppState :=
  mkAppState (activeTab st) (activeTabRef st) (repos st) (favorites st) (status st)
             (logs st ++ [msg]) (lastUpdated st) (console st) (localStorage st).
Definition setLastUpdated (ts : option Z) (st : AppState) : AppState :=
  mkAppState (activeTab st) (activeTabRef st) (repos st) (favorites st) (status st)
             (logs st) ts (console st) (localStorage st).
Definition console_write (msg : ConsoleLine) (st : AppState) : AppState :=
  mkAppState (activeTab st) (activeTabRef st) (repos st) (favorites st) (status st)
             (logs st) (lastUpdated st) (console st ++ [msg]) (localStorage st).
Definition set_localStorage (s : Storage) (st : AppState) : AppState :=
  mkAppState (activeTab st) (activeTabRef st) (repos st) (favorites st) (status st)
             (logs st) (lastUpdated st) (console st) s.

(** [localStorage.setItem(CACHE_PREFIX + frame, text)]. *)
Definition setItem_cache (frame : TimeFrame) (b : CacheBlob) (s : Storage) : Storage :=
  mkStorage (<[frame := b]> (cache s)) (vault s).
(** [localStorage.setItem(FAV_STORAGE_KEY, text)] and [removeItem]. *)
Definition setItem_fav (b : FavBlob) (s : Storage) : Storage :=
  mkStorage (cache s) (Some b).
Definition removeItem_fav (s : Storage) : Storage :=
  mkStorage (cache s) None.

(** The state a freshly mounted [App] starts from. *)
Definition initial_state (s : Storage) : AppState :=
  mkAppState TF_3d TF_3d (Some []) [] IDLE
             [LogSystemInit; LogAwaitingCommand] None [] s.

(** JavaScript truthiness of the values read from a cache cell: a present
    array is truthy, a number is truthy unless it is 0. *)
Definition truthy_data (d : option (list Repo)) : bool :=
  match d with Some _ => true | None => false end.
Definition truthy_number (t : option Z) : bool :=
  match t with Some n => negb (n =? 0) | None => false end.

(** ** Cache (App.tsx, [loadCache] and [saveCache]) *)

Definition loadCache (tza now : Z) (frame : TimeFrame) (st : AppState)
  : option CacheEntry * AppState :=
  match cache (localStorage st) !! frame with
  | None => (None, st)
  | Some (CacheCorrupt text) =>
      if (text =? "")%string then (None, st)
      else (None, console_write ConsoleCacheLoadError st)
  | Some (CacheJson d t) =>
      if negb (truthy_data d) || negb (truthy_number t) then (None, st)
      else
        match d, t with
        | Some d, Some t =>
            let checkpoint := getLatestCheckpoint tza now in
            if t <? checkpoint then (None, addLog (LogCacheExpired t) st)
            else (Some (mkCacheEntry d t), st)
        | _, _ => (None, st)
        end
  end.

Definition saveCache (now : Z) (frame : TimeFrame) (d : list Repo) (st : AppState)
  : AppState :=
  let timestamp := now in
  let st := set_localStorage
              (setItem_cache frame (CacheJson (Some d) (Some timestamp)) (localStorage st)) st in
  if decide (activeTabRef st = frame) then setLastUpdated (Some timestamp) st
  else st.

(** ** Scan orchestrator (App.tsx, [handleScan]) *)

(** A scan whose [fetchTrendingRepos(frame)] promise has not settled yet:
    the closure variables of the suspended call. *)
Record Pending : Set := mkPending {
  scan_frame : TimeFrame;
  scan_forced : bool;
  scan_start : Z
}.

(** The value a rejected promise carries. *)
Record JsError : Set := mkJsError { message : string }.

(** How a piece of code ends: it returns, or an exception escapes it (for
    an [async] function: its promise rejects). The state reached is kept in
    both cases. *)
Inductive Completion : Type :=
| Returned (st : AppState)
| Threw (st : AppState).

Definition state_of (c : Completion) : AppState :=
  match c with Returned st => st | Threw st => st end.

(** [handleScan(frame, forceRefresh)] up to its [await]. [now] is the clock
    read inside [loadCache], [start] the one taken before the fetch. The
    second component is the scan left in flight, if any. *)
Definition handleScan (tza now start : Z) (frame : TimeFrame) (forceRefresh : bool)
    (st : AppState) : AppState * option Pending :=
  let st := setActiveTab frame st in
  let st := set_activeTabRef frame st in
  let scan st :=
    let st := setStatus SCANNING st in
    let st := if forceRefresh then addLog LogForceRefresh st
              else addLog (LogScanStart frame) st in
    let st := setRepos (Some []) st in
    (st, Some (mkPending frame forceRefresh start)) in
  if negb forceRefresh then
    match loadCache tza now frame st with
    | (Some cached, st) =>
        let st := setRepos (Some (data cached)) st in
        let st := setLastUpdated (Some (timestamp cached)) st in
        let st := setStatus COMPLETE st in
        let st := addLog (LogCacheLoaded frame) st in
        (st, None)
    | (None, st) => scan st
    end
  else scan st.

(** The rest of the [try] block, run when the fetch fulfils with
    [results]; [t_done] and [t_save] are the two clock reads. *)
Definition handleScan_fulfilled (p : Pending) (results : list Repo) (t_done t_save : Z)
    (st : AppState) : AppState :=
  let frame := scan_frame p in
  let duration := t_done - scan_start p in
  if decide (activeTabRef st <> frame) then
    console_write (ConsoleScanDiscarded frame) st
  else
    let st := setRepos (Some results) st in
    let st := saveCache t_save frame results st in
    let st := setStatus COMPLETE st in
    addLog (LogScanDone duration (length results)) st.

(** The [catch] block, run when the fetch rejects with [error]. *)
Definition handleScan_rejected (p : Pending) (error : JsError) (st : AppState)
    : Completion :=
  let frame := scan_frame p in
  if decide (activeTabRef st <> frame) then Returned st
  else
    let st := console_write (ConsoleError (message error)) st in
    let st := setStatus ERROR st in
    let st := if (message error =? "")%string then addLog LogFatalUnknown st
              else addLog (LogFatal (message error)) st in
    match cache (localStorage st) !! frame with
    | None => Returned st
    | Some (CacheCorrupt text) =>
        if (text =? "")%string then Returned st
        else Threw st
    | Some (CacheJson d t) =>
        let st := setRepos d st in
        let st := setLastUpdated t st in
        Returned (addLog LogStaleRestored st)
    end.

(** ** Favorites vault (App.tsx, [toggleFavorite] and the mount effect) *)

(** [f.name] for an element of the favorites: a bare string has no such
    property. *)
Definition item_name (f : FavItem) : option string :=
  match f with
  | FavName _ => None
  | FavRecord r => Some (name r)
  end.

(** [f.name === repo.name] and [f.name !== repo.name]. *)
Definition same_name (repo : Repo) (f : FavItem) : bool :=
  match item_name f with
  | Some n => (n =? name repo)%string
  | None => false
  end.
Definition other_name (repo : Repo) (f : FavItem) : bool := negb (same_name repo f).

Definition toggleFavorite (repo : Repo) (st : AppState) : AppState :=
  let prev := favorites st in
  let exists_ := existsb (same_name repo) prev in
  let newFavs :=
    if exists_ then List.filter (other_name repo) prev
    else prev ++ [FavRecord repo] in
  let st := if exists_ then addLog (LogFavRemoved (name repo)) st
            else addLog (LogFavAdded (name repo)) st in
  let st := set_localStorage (setItem_fav (FavArray newFavs) (localStorage st)) st in
  setFavorites newFavs st.

(** The effect run once when [App] mounts. *)
Definition App_mount (tza now start : Z) (st : AppState) : AppState * option Pending :=
  let st := addLog LogInterfaceReady st in
  let st :=
    match vault (localStorage st) with
    | None => st
    | Some (FavCorrupt text) =>
        if (text =? "")%string then st
        else console_write ConsoleFavParseError st
    | Some (FavArray parsed) =>
        match parsed with
        | FavName _ :: _ =>
            let st := console_write ConsoleLegacyFavorites st in
            set_localStorage (removeItem_fav (localStorage st)) st
        | _ => setFavorites parsed st
        end
    end in
  handleScan tza now start TF_3d false st.

(** *** Interleavings of scans

    One cooperative thread: the application mounts; the user clicks a tab
    ([handleScan(tab, false)]) or the refresh button
    ([handleScan(activeTab, true)], a button that is disabled while the
    status is [SCANNING]); a call runs to its [await]; later the pending
    fetch of some in-flight scan settles and its continuation runs. *)
Record System : Type := mkSystem {
  app : AppState;
  inflight : list Pending
}.

Inductive Event : Type :=
| ClickTab (tab : TimeFrame) (now start : Z)
| ClickRefresh (now start : Z)
| Fulfilled (i : nat) (results : list Repo) (t_done t_save : Z)
| Rejected (i : nat) (error : JsError).

Definition launch (sys : System) (called : AppState * option Pending) : System :=
  match called with
  | (st, Some p) => mkSystem st (inflight sys ++ [p])
  | (st, None) => mkSystem st (inflight sys)
  end.

Definition step (tza : Z) (e : Event) (sys : System) : System :=
  match e with
  | ClickTab tab now start =>
      launch sys (handleScan tza now start tab false (app sys))
  | ClickRefresh now start =>
      match status (app sys) with
      | SCANNING => sys
      | _ => launch sys (handleScan tza now start (activeTab (app sys)) true (app sys))
      end
  | Fulfilled i results t_done t_save =>
      match inflight sys !! i with
      | Some p => mkSystem (handleScan_fulfilled p results t_done t_save (app sys))
                           (delete i (inflight sys))
      | None => sys
      end
  | Rejected i error =>
      match inflight sys !! i with
      | Some p => mkSystem (state_of (handleScan_rejected p error (app sys)))
                           (delete i (inflight sys))
      | None => sys
      end
  end.

Definition run (tza : Z) (es : list Event) (sys : System) : System :=
  fold_left (fun s e => step tza e s) es sys.

(** The system once [App] has mounted on storage [s]. *)
Definition boot (tza now start : Z) (s : Storage) : System :=
  launch (mkSystem (initial_state s) []) (App_mount tza now start (initial_state s)).

(** ** String operations of the name clean-up *)

Module JsString.
Local Open Scope string_scope.

(** [s.startsWith(p)], returning what follows the prefix. *)
Fixpoint strip_prefix (p s : string) : option string :=
  match p, s with
  | EmptyString, _ => Some s
  | String a p', String b s' =>
      if Ascii.eqb a b then strip_prefix p' s' else None
  | String _ _, EmptyString => None
  end.

(** [s.endsWith(suf)], returning what precedes the suffix. *)
Fixpoint strip_suffix (suf s : string) : option string :=
  if s =? suf then Some EmptyString
  else match s with
       | EmptyString => None
       | String c s' => option_map (String c) (strip_suffix suf s')
       end.

(** [s.includes(c)] for a one-character needle. *)
Fixpoint includes (c : ascii) (s : string) : bool :=
  match s with
  | EmptyString => false
  | String b s' => Ascii.eqb b c || includes c s'
  end.

(** White space and line terminators removed by [trim], among the code
    units below 256: TAB, LF, VT, FF, CR, SP and NBSP. *)
Definition is_white_space (c : ascii) : bool :=
  let n := nat_of_ascii c in
  ((9 <=? n) && (n <=? 13) || (n =? 32) || (n =? 160))%nat.

Fixpoint trimStart (s : string) : string :=
  match s with
  | EmptyString => EmptyString
  | String c s' => if is_white_space c then trimStart s' else s
  end.

Fixpoint trimEnd (s : string) : string :=
  match s with
  | EmptyString => EmptyString
  | String c s' =>
      match trimEnd s' with
      | EmptyString => if is_white_space c then EmptyString else String c EmptyString
      | t => String c t
      end
  end.

Definition trim (s : string) : string := trimEnd (trimStart s).

(** [name.replace(/^https?:\/\/github\.com\//, '')]. *)
Definition replace_github_url (s : string) : string :=
  match strip_prefix "http://github.com/" s with
  | Some rest => rest
  | None =>
      match strip_prefix "https://github.com/" s with
      | Some rest => rest
      | None => s
      end
  end.

(** [s.replace(/\.git$/, '')]. *)
Definition replace_dot_git (s : string) : string :=
  match strip_suffix ".git" s with
  | Some rest => rest
  | None => s
  end.

(** [if (s.endsWith('/')) s = s.slice(0, -1)]. *)
Definition drop_trailing_slash (s : string) : string :=
  match strip_suffix "/" s with
  | Some rest => rest
  | None => s
  end.

End JsString.

(** ** Candidate validation (services/geminiService.ts) *)

(** The body GitHub answers with, as far as [fetchRepoDetails] reads it. *)
Record GitHubData : Set := mkGitHubData {
  pushed_at : option string;
  archived : option bool;
  stargazers_count : option Z;
  gh_language : option string
}.

(** How [fetch] of a repository's metadata ends: the request fails, or a
    response arrives with a status code and a body ([None]: the body is not
    JSON, so [response.json()] rejects). *)
Inductive FetchResult : Set :=
| NetworkFailure
| HttpResponse (status : Z) (body : option GitHubData).

Definition response_ok (status : Z) : bool := (200 <=? status) && (status <=? 299).

(** [Partial<Repo>] as [fetchRepoDetails] builds it: for each enrichment
    field, [None] when the object has no such key, [Some v] when it has
    the key with value [v]. *)
Record RepoDetails : Set := mkRepoDetails {
  d_lastPushedAt : option (option string);
  d_isArchived : option (option bool);
  d_starsCount : option (option Z);
  d_language : option (option string);
  d_isRateLimited : option (option bool)
}.

Definition rate_limited_details : RepoDetails :=
  mkRepoDetails None None None None (Some (Some true)).

(** [fetchRepoDetails(name)], given how the request for [name] ended;
    [None] is the [null] result. *)
Definition fetchRepoDetails (r : FetchResult) : option RepoDetails :=
  match r with
  | NetworkFailure => Some rate_limited_details
  | HttpResponse status body =>
      if status =? 404 then None
      else if (status =? 403) || (status =? 429) then Some rate_limited_details
      else if negb (response_ok status) then None
      else
        match body with
        | None => Some rate_limited_details
        | Some d =>
            Some (mkRepoDetails (Some (pushed_at d)) (Some (archived d))
                                (Some (stargazers_count d)) (Some (gh_language d))
                                (Some (Some false)))
        end
  end.

(** One property of an object spread [{ ...repo, ...details }]: the
    later object wins when it has the key. *)
Definition spread {A : Type} (base : option A) (over : option (option A)) : option A :=
  match over with
  | Some v => v
  | None => base
  end.

(** [{ ...repo, name: cleanName, ...details }]. *)
Definition enrich (repo : Repo) (cleanName : string) (details : RepoDetails) : Repo :=
  mkRepo cleanName (url repo) (description repo) (starsTrend repo) (tags repo)
         (spread (lastPushedAt repo) (d_lastPushedAt details))
         (spread (isArchived repo) (d_isArchived details))
         (spread (starsCount repo) (d_starsCount details))
         (spread (language repo) (d_language details))
         (spread (isRateLimited repo) (d_isRateLimited details)).

Definition TARGET_COUNT : nat := 10.

(** The clean-up of a candidate's name. *)
Definition cleanName (raw : string) : string :=
  JsString.drop_trailing_slash
    (JsString.trim (JsString.replace_dot_git (JsString.replace_github_url raw))).

(** The name checks of the loop body: [None] when the candidate is
    skipped ([continue]), [Some] of the cleaned name when it goes on to the
    metadata lookup. *)
Definition normalize (repo : Repo) : option string :=
  if (name repo =? "")%string then None
  else
    let clean := cleanName (name repo) in
    if negb (JsString.includes "/" clean) then None
    else Some clean.

(** What the loop body does with one candidate once the target check has
    passed: [Some] of the entry it pushes, [None] when it moves on. The
    metadata endpoint is [github], a function of the requested name for
    the duration of one run. *)
Definition validate (github : string -> FetchResult) (repo : Repo) : option Repo :=
  match normalize repo with
  | None => None
  | Some clean =>
      match fetchRepoDetails (github clean) with
      | Some details => Some (enrich repo clean details)
      | None => None
      end
  end.

(** The [for (const repo of allCandidates)] loop of [fetchTrendingRepos],
    with [validRepos] as accumulator. *)
Fixpoint validation_loop (github : string -> FetchResult)
    (allCandidates : list Repo) (validRepos : list Repo) : list Repo :=
  match allCandidates with
  | [] => validRepos
  | repo :: rest =>
      if (TARGET_COUNT <=? length validRepos)%nat then validRepos
      else
        match validate github repo with
        | Some entry => validation_loop github rest (validRepos ++ [entry])
        | None => validation_loop github rest validRepos
        end
  end.

(** What the validation step of [fetchTrendingRepos] ends with. *)
Inductive ScanResult : Set :=
| Accepted (validRepos : list Repo)
| NoValidTargets.

(** Step 4 of [fetchTrendingRepos], from the parsed candidate array on. *)
Definition fetchTrendingRepos (github : string -> FetchResult)
    (allCandidates : list Repo) : ScanResult :=
  let validRepos := validation_loop github allCandidates [] in
  if (length validRepos =? 0)%nat then NoValidTargets
  else Accepted validRepos.

(** ** Status tiers (components/RepoCard.tsx, [getStatusInfo]) *)

Inductive StatusTier : Set :=
| TierFrozen
| TierSecure
| TierUnknown
| TierCritical
| TierOnline
| TierStable
| TierIdle
| TierDecay
| TierOffline.

Definition truthy_bool (b : option bool) : bool :=
  match b with Some true => true | _ => false end.
Definition truthy_string (s : option string) : bool :=
  match s with Some s => negb (s =? "")%string | None => false end.

(** The tier of a whole number of days since the last push. *)
Definition tier_of_days (daysSincePush : Z) : StatusTier :=
  if daysSincePush <=? 3 then TierCritical
  else if daysSincePush <=? 7 then TierOnline
  else if daysSincePush <=? 30 then TierStable
  else if daysSincePush <=? 90 then TierIdle
  else if daysSincePush <=? 180 then TierDecay
  else TierOffline.

(** [getStatusInfo()] for the card of [repo] at time [now]. [parse] is
    [Date.parse]: the time value of a date string, [None] when the string
    is not a date (the time value is then NaN, every comparison with it is
    false and the last branch is taken). *)
Definition getStatusInfo (parse : string -> option Z) (repo : Repo) (now : Z)
  : StatusTier :=
  if truthy_bool (isArchived repo) then TierFrozen
  else if truthy_bool (isRateLimited repo) then TierSecure
  else if negb (truthy_string (lastPushedAt repo)) then TierUnknown
  else
    match lastPushedAt repo with
    | None => TierUnknown
    | Some s =>
        match parse s with
        | None => TierOffline
        | Some lastPush =>
            let diffMs := now - lastPush in
            let daysSincePush := diffMs / (1000 * 3600 * 24) in
            tier_of_days daysSincePush
        end
    end.

(** ** Readings of the specification used below *)

(** What the user sees of a state: the tab, the displayed list, the
    favorites, the status, the log panel and the "last updated" stamp. *)
Definition display (st : AppState) :=
  (activeTab st, repos st, favorites st, status st, logs st, lastUpdated st).

(** C1's second clause as written: in a state the application can
    reach, a non-forced scan [p] for a window is in flight when a forced
    refresh [q] for the same window is requested; [q] completes, then [p]
    does. The completion of [p] changes neither the displayed list nor the
    cache cell of the window. *)
Definition forced_refresh_not_overwritten : Prop :=
  forall (tza now start : Z) (s : Storage) (es : list Event)
         (i j : nat) (p q : Pending)
         (R_prior R_forced : list Repo) (td1 ts1 td2 ts2 : Z),
    let sys1 := run tza es (boot tza now start s) in
    inflight sys1 !! i = Some p -> inflight sys1 !! j = Some q -> (i < j)%nat ->
    scan_forced p = false -> scan_forced q = true -> scan_frame p = scan_frame q ->
    let sys2 := step tza (Fulfilled j R_forced td2 ts2) sys1 in
    let sys3 := step tza (Fulfilled i R_prior td1 ts1) sys2 in
    repos (app sys3) = repos (app sys2) /\
    cache (localStorage (app sys3)) !! scan_frame p
    = cache (localStorage (app sys2)) !! scan_frame p.

(** The clicks and completions of the example that refutes it: the scan
    started at mount is still in flight when the 3-day tab is clicked
    again; that second scan completes, which enables the refresh button;
    the button is pressed. *)
Definition overlapping_refresh : list Event :=
  [ClickTab TF_3d 10 11; Fulfilled 1 [] 20 21; ClickRefresh 30 31].

(** C6 as written, in its weakest reading: after two toggles of the
    same record the favorites hold the same records as before (in any
    order). *)
Definition toggle_twice_restores_contents : Prop :=
  forall (st : AppState) (repo : Repo),
    let st2 := toggleFavorite repo (toggleFavorite repo st) in
    forall f, In f (favorites st2) <-> In f (favorites st).

(** The names of the favorites. *)
Definition item_names (l : list FavItem) : list string := omap item_name l.
Definition favorite_names (st : AppState) : list string := item_names (favorites st).

(** A record to run examples on. *)
Definition sample_repo (n d : string) : Repo :=
  mkRepo n "" d "" [] None None None None None.

(** The candidates that pass validation, each with its entry, in the
    order of the input. *)
Definition survivors (github : string -> FetchResult) (cs : list Repo) : list Repo :=
  omap (validate github) cs.

(** The entry pushed for a candidate whose lookup was rate limited: the
    candidate's own fields under the cleaned name, flagged. *)
Definition rate_limited_entry (c : Repo) (clean : string) : Repo :=
  mkRepo clean (url c) (description c) (starsTrend c) (tags c)
         (lastPushedAt c) (isArchived c) (starsCount c) (language c) (Some true).

(** The entry pushed for a candidate whose lookup answered with [d]. *)
Definition enriched_entry (c : Repo) (clean : string) (d : GitHubData) : Repo :=
  mkRepo clean (url c) (description c) (starsTrend c) (tags c)
         (pushed_at d) (archived d) (stargazers_count d) (gh_language d) (Some false).

(** A candidate whose name passes the checks and whose lookup is answered
    404. *)
Definition gets_not_found (github : string -> FetchResult) (c : Repo) : Prop :=
  exists clean body, normalize c = Some clean /\ github clean = HttpResponse 404 body.

(** A candidate whose name passes the checks and whose lookup is answered
    with a success status and metadata; [e] is the entry made of it. *)
Definition gets_metadata (github : string -> FetchResult) (c e : Repo) : Prop :=
  exists clean status d,
    normalize c = Some clean /\ github clean = HttpResponse status (Some d) /\
    response_ok status = true /\ e = enriched_entry c clean d.

(** A metadata endpoint and a candidate list to run examples on. *)
Definition sample_metadata : GitHubData :=
  mkGitHubData (Some "2024-05-01T00:00:00Z"%string) (Some false) (Some 42) (Some "Rust"%string).

Definition sample_github (n : string) : FetchResult :=
  if (n =? "x/gone")%string then HttpResponse 404 None
  else if (n =? "x/busy")%string then HttpResponse 403 None
  else HttpResponse 200 (Some sample_metadata).

Definition sample_entry (c : Repo) : Repo :=
  enriched_entry c (cleanName (name c)) sample_metadata.

Definition sample_head : list Repo :=
  [sample_repo "https://github.com/o/r0.git" "zero"; sample_repo "o/r1" "one";
   sample_repo "o/r2/" "two"]%string.

Definition sample_tail : list Repo :=
  [sample_repo "o/r3" "three"; sample_repo "o/r4" "four"; sample_repo "o/r5" "five";
   sample_repo "o/r6" "six"; sample_repo "o/r7" "seven"; sample_repo "o/r8" "eight"]%string.

(** ** Further notions used by the properties *)

(** Half a day, the distance between two refresh boundaries. *)
Definition twelve_hours : Z := 12 * msPerHour.


(** The log of [st'] extends the log of [st]. *)
Definition log_extends (st st' : AppState) : Prop :=
  exists more, logs st' = logs st ++ more.

(** An order on the tiers of a repository that is neither archived nor
    rate limited: from the freshest to the stalest. *)
Definition tier_rank (t : StatusTier) : Z :=
  match t with
  | TierCritical => 0
  | TierOnline => 1
  | TierStable => 2
  | TierIdle => 3
  | TierDecay => 4
  | TierOffline => 5
  | TierFrozen | TierSecure | TierUnknown => -1
  end.

(** ** Relative time on a card (components/RepoCard.tsx,
    [formatRelativeTime]) *)

(** The strings [formatRelativeTime] produces: the empty string, "just
    now", [n] minutes, hours or days ago, or the localized date. *)
Inductive RelativeTime : Set :=
| RelNone
| RelJustNow
| RelMinutes (n : Z)
| RelHours (n : Z)
| RelDays (n : Z)
| RelLocaleDate.

(** [formatRelativeTime(dateStr)] at time [now]; [parse] is [Date.parse]
    as in [getStatusInfo] (for a string that is not a date every
    comparison is false and the localized date is returned). *)
Definition formatRelativeTime (parse : string -> option Z) (dateStr : option string)
    (now : Z) : RelativeTime :=
  if negb (truthy_string dateStr) then RelNone
  else
    match dateStr with
    | None => RelNone
    | Some s =>
        match parse s with
        | None => RelLocaleDate
        | Some date =>
            let diffSeconds := (now - date) / 1000 in
            if diffSeconds <? 60 then RelJustNow
            else if diffSeconds <? 3600 then RelMinutes (diffSeconds / 60)
            else if diffSeconds <? 86400 then RelHours (diffSeconds / 3600)
            else if diffSeconds <? 2592000 then RelDays (diffSeconds / 86400)
            else RelLocaleDate
        end
    end.

(** ** Countdown to the next refresh (components/CountDown.tsx,
    [calculateTimeLeft]) *)





(** ** Card and report titles (App.tsx [handleCopyReport], RepoCard.tsx) *)

(** [s.split('/')]. *)
Fixpoint split_slash (s : string) : list string :=
  match s with
  | EmptyString => [EmptyString]
  | String c s' =>
      if Ascii.eqb c "/" then EmptyString :: split_slash s'
      else
        match split_slash s' with
        | seg :: segs => String c seg :: segs
        | [] => [String c EmptyString]
        end
  end.

(** [name.split('/')[1] || name]: the title shown for a repository. *)
Definition short_name (n : string) : string :=
  match split_slash n !! 1%nat with
  | Some seg => if (seg =? "")%string then n else seg
  | None => n
  end.

(** ** Locating the JSON array in the model's answer
    ([fetchTrendingRepos], steps 1 and 2) *)

(** [s.indexOf(c)] and [s.lastIndexOf(c)] for a one-character needle;
    [None] is the result -1. *)
Fixpoint indexOf (c : ascii) (s : string) : option nat :=
  match s with
  | EmptyString => None
  | String b s' => if Ascii.eqb b c then Some O else option_map S (indexOf c s')
  end.

Fixpoint lastIndexOf (c : ascii) (s : string) : option nat :=
  match s with
  | EmptyString => None
  | String b s' =>
      match lastIndexOf c s' with
      | Some i => Some (S i)
      | None => if Ascii.eqb b c then Some O else None
      end
  end.

(** [s.substring(start, end)] for indices that are not negative: the
    two are swapped when [start] is the larger. *)
Definition js_substring (start end_ : nat) (s : string) : string :=
  String.substring (Nat.min start end_) (Nat.max start end_ - Nat.min start end_) s.

(** [s.startsWith(p)]. *)
Fixpoint starts_with (p s : string) {struct p} : bool :=
  match p with
  | EmptyString => true
  | String a p' =>
      match s with
      | EmptyString => false
      | String b s' => Ascii.eqb a b && starts_with p' s'
      end
  end.

(** [s.replace(/pat/g, '')] for a pattern of literal characters:
    occurrences are removed from left to right without overlap. [skip]
    counts the characters of a match still to be dropped. *)
Fixpoint remove_all_from (pat : string) (skip : nat) (s : string) : string :=
  match s with
  | EmptyString => EmptyString
  | String c s' =>
      match skip with
      | S k => remove_all_from pat k s'
      | O =>
          if starts_with pat s then remove_all_from pat (String.length pat - 1) s'
          else String c (remove_all_from pat O s')
      end
  end.

Definition remove_all (pat s : string) : string := remove_all_from pat O s.

(** Step 1: the code fences are removed and the text is trimmed. *)
Definition remove_code_fences (text : string) : string :=
  JsString.trim (remove_all "```" (remove_all "```json" text)).


(** Step 2 on the text left by step 1: the stretch between the first
    [[] and the last []]; [None] when either is missing (the function
    throws). *)
Definition extract_array (text : string) : option string :=
  let firstBracket := indexOf "[" text in
  let lastBracket := lastIndexOf "]" text in
  match firstBracket, lastBracket with
  | Some f, Some l => Some (js_substring f (l + 1) text)
  | _, _ => None
  end.

(** * Properties *)

(** ** Checkpoint scheduler *)

Section CheckpointFacts.
Variable tza : Z.

Lemma setHours_at_hour h now :
  setHours tza h 0 0 0 now = at_hour tza (today tza now) h.
Proof. reflexivity. Qed.

Lemma today_setDate_previous now :
  today tza (setDate_previous tza now) = today tza now - 1.
Proof.
  unfold setDate_previous, today, LocalTime, UTC, MakeDate, Day, TimeWithinDay, msPerDay.
  replace ((now + tza) `div` 86400000 - 1) with ((now + tza - 86400000) `div` 86400000).
  2:{ replace (now + tza - 86400000) with (now + tza + (-1) * 86400000) by lia.
      rewrite Z.div_add by lia. lia. }
  f_equal.
  pose proof (Z.div_mod (now + tza) 86400000 ltac:(lia)).
  pose proof (Z.div_mod (now + tza - 86400000) 86400000 ltac:(lia)).
  replace (now + tza - 86400000) with (now + tza + (-1) * 86400000) in * by lia.
  rewrite Z.div_add in * by lia.
  lia.
Qed.

Lemma today_bounds now :
  at_hour tza (today tza now) 0 <= now < at_hour tza (today tza now + 1) 0.
Proof.
  unfold at_hour, today, UTC, MakeDate, MakeTime, Day, LocalTime, msPerHour, msPerDay.
  pose proof (Z.div_mod (now + tza) 86400000 ltac:(lia)).
  pose proof (Z.mod_pos_bound (now + tza) 86400000 ltac:(lia)).
  lia.
Qed.

Lemma at_hour_le d1 h1 d2 h2 :
  0 <= h1 < 24 -> 0 <= h2 < 24 ->
  (at_hour tza d1 h1 <= at_hour tza d2 h2 <-> d1 < d2 \/ (d1 = d2 /\ h1 <= h2)).
Proof.
  unfold at_hour, UTC, MakeDate, MakeTime, msPerHour, msPerDay. lia.
Qed.

Lemma getLatestCheckpoint_cases now :
  let d := today tza now in
  (now < at_hour tza d 5 ->
     getLatestCheckpoint tza now = at_hour tza (d - 1) 17) /\
  (at_hour tza d 5 <= now < at_hour tza d 17 ->
     getLatestCheckpoint tza now = at_hour tza d 5) /\
  (at_hour tza d 17 <= now ->
     getLatestCheckpoint tza now = at_hour tza d 17).
Proof.
  cbv zeta. unfold getLatestCheckpoint.
  rewrite !setHours_at_hour.
  assert (Hlt : at_hour tza (today tza now) 5 < at_hour tza (today tza now) 17)
    by (unfold at_hour, UTC, MakeDate, MakeTime, msPerHour, msPerDay; lia).
  split; [|split]; intros H.
  - destruct (Z.ltb_spec now (at_hour tza (today tza now) 5)); [|lia].
    rewrite today_setDate_previous. reflexivity.
  - destruct (Z.ltb_spec now (at_hour tza (today tza now) 5)); [lia|].
    destruct (Z.ltb_spec now (at_hour tza (today tza now) 17)); [reflexivity|lia].
  - destruct (Z.ltb_spec now (at_hour tza (today tza now) 5)); [lia|].
    destruct (Z.ltb_spec now (at_hour tza (today tza now) 17)); [lia|reflexivity].
Qed.

(** The checkpoint is a boundary, it is not after [now], and no boundary
    lies between it and [now]. *)
Lemma getLatestCheckpoint_latest now :
  is_boundary tza (getLatestCheckpoint tza now) /\
  getLatestCheckpoint tza now <= now /\
  (forall b, is_boundary tza b -> b <= now -> b <= getLatestCheckpoint tza now).
Proof.
  destruct (getLatestCheckpoint_cases now) as (Hbefore & Hday & Hevening).
  pose proof (today_bounds now) as [Hlo Hhi].
  set (d := today tza now) in *.
  assert (H0_5 : at_hour tza d 0 < at_hour tza d 5)
    by (apply Z.lt_nge; rewrite at_hour_le; lia).
  assert (H5_17 : at_hour tza d 5 < at_hour tza d 17)
    by (apply Z.lt_nge; rewrite at_hour_le; lia).
  assert (Hprev : at_hour tza (d - 1) 17 < at_hour tza d 0)
    by (apply Z.lt_nge; rewrite at_hour_le; lia).
  assert (Hbound : forall b, is_boundary tza b -> b <= now ->
            forall d' h', (h' = 5 \/ h' = 17) ->
            (forall d2 h2, (h2 = 5 \/ h2 = 17) -> at_hour tza d2 h2 <= now ->
               d2 < d' \/ (d2 = d' /\ h2 <= h')) ->
            b <= at_hour tza d' h').
  { intros b [db [-> | ->]] Hb d' h' Hh' Hall.
    - apply at_hour_le; [lia | lia |]. apply (Hall db 5); auto.
    - apply at_hour_le; [lia | lia |]. apply (Hall db 17); auto. }
  destruct (Z.lt_ge_cases now (at_hour tza d 5)) as [Hc | Hc].
  - rewrite (Hbefore Hc). split; [exists (d - 1); auto|]. split; [lia|].
    intros b Hb Hle. apply (Hbound b Hb Hle); [auto|].
    intros d2 h2 Hh2 Hle2.
    assert (Hx : at_hour tza d2 h2 < at_hour tza d 5) by lia.
    apply Z.lt_nge in Hx. rewrite at_hour_le in Hx by lia. lia.
  - destruct (Z.lt_ge_cases now (at_hour tza d 17)) as [Hc' | Hc'].
    + rewrite (Hday (conj Hc Hc')). split; [exists d; auto|]. split; [lia|].
      intros b Hb Hle. apply (Hbound b Hb Hle); [auto|].
      intros d2 h2 Hh2 Hle2.
      assert (Hx : at_hour tza d2 h2 < at_hour tza d 17) by lia.
      apply Z.lt_nge in Hx. rewrite at_hour_le in Hx by lia. lia.
    + rewrite (Hevening Hc'). split; [exists d; auto|]. split; [lia|].
      intros b Hb Hle. apply (Hbound b Hb Hle); [auto|].
      intros d2 h2 Hh2 Hle2.
      assert (Hx : at_hour tza d2 h2 < at_hour tza (d + 1) 0) by lia.
      apply Z.lt_nge in Hx. rewrite at_hour_le in Hx by lia. lia.
Qed.

End CheckpointFacts.

(** C2, as the code has it: before 05:00 local time the checkpoint is
    17:00 of the previous day, from 05:00 up to 17:00 it is 05:00 of the
    current day, from 17:00 on it is 17:00 of the current day; in every
    case it is the most recent boundary at or before the current time (it
    equals the current time when that is exactly 05:00 or 17:00). *)
Theorem getLatestCheckpoint_most_recent_boundary (tza now : Z) :
  let d := today tza now in
  (now < at_hour tza d 5 ->
     getLatestCheckpoint tza now = at_hour tza (d - 1) 17) /\
  (at_hour tza d 5 <= now < at_hour tza d 17 ->
     getLatestCheckpoint tza now = at_hour tza d 5) /\
  (at_hour tza d 17 <= now ->
     getLatestCheckpoint tza now = at_hour tza d 17) /\
  is_boundary tza (getLatestCheckpoint tza now) /\
  getLatestCheckpoint tza now <= now /\
  (forall b, is_boundary tza b -> b <= now -> b <= getLatestCheckpoint tza now).
Proof.
  cbv zeta.
  pose proof (getLatestCheckpoint_cases tza now) as (H1 & H2 & H3).
  pose proof (getLatestCheckpoint_latest tza now) as (H4 & H5 & H6).
  repeat split; auto; intros; auto.
Qed.

(** C2 as written fails: at exactly 05:00:00.000 the checkpoint is the
    current time itself, not a time strictly before it. *)
Lemma getLatestCheckpoint_not_strictly_before :
  getLatestCheckpoint 0 18000000 = 18000000 /\ ~ checkpoint_strictly_before_now.
Proof.
  split; [reflexivity|].
  intros H. specialize (H 0 18000000). vm_compute in H. discriminate H.
Qed.

Lemma getLatestCheckpoint_most_recent_boundary_witness :
  getLatestCheckpoint 0 18000000 = at_hour 0 0 5 /\
  getLatestCheckpoint 0 18000000 <= 18000000.
Proof.
  pose proof (getLatestCheckpoint_most_recent_boundary 0 18000000)
    as (_ & Hday & _ & _ & Hle & _).
  split; [apply Hday; vm_compute; split; congruence | exact Hle].
Defined.

(** ** Cache *)

Lemma localStorage_loadCache tza now frame st :
  localStorage (loadCache tza now frame st).2 = localStorage st.
Proof.
  unfold loadCache.
  destruct (cache (localStorage st) !! frame) as [[text | d t]|]; simpl; [| |reflexivity].
  - destruct (text =? "")%string; reflexivity.
  - destruct d as [d|], t as [t|]; simpl; try reflexivity.
    destruct (t =? 0); simpl; [reflexivity|].
    destruct (t <? getLatestCheckpoint tza now); reflexivity.
Qed.

(** [loadCache] touches nothing but the log and the console. *)
Lemma loadCache_frame_state tza now frame st :
  let st' := (loadCache tza now frame st).2 in
  activeTab st' = activeTab st /\ activeTabRef st' = activeTabRef st /\
  repos st' = repos st /\ favorites st' = favorites st /\
  status st' = status st /\ lastUpdated st' = lastUpdated st.
Proof.
  unfold loadCache.
  destruct (cache (localStorage st) !! frame) as [[text | d t]|]; simpl; auto 10.
  - destruct (text =? "")%string; simpl; auto 10.
  - destruct d as [d|], t as [t|]; simpl; auto 10.
    destruct (t =? 0); simpl; auto 10.
    destruct (t <? getLatestCheckpoint tza now); simpl; auto 10.
Qed.

(** C3: [loadCache] returns an entry only when the stored blob parses,
    has both fields and its timestamp is not before the latest checkpoint,
    and then it returns that stored entry; an entry whose timestamp is
    before the checkpoint yields [null], changes nothing except for the
    expiry line in the log (written whenever the entry has passed the
    check of its two fields), and storage is left as it was. *)
Theorem loadCache_returns_fresh_entries_only (tza now : Z) (frame : TimeFrame)
    (st : AppState) :
  let checkpoint := getLatestCheckpoint tza now in
  (forall e st', loadCache tza now frame st = (Some e, st') ->
     exists d t,
       cache (localStorage st) !! frame = Some (CacheJson (Some d) (Some t)) /\
       e = mkCacheEntry d t /\ checkpoint <= t /\ st' = st) /\
  (forall d t, cache (localStorage st) !! frame = Some (CacheJson d (Some t)) ->
     t < checkpoint ->
     (loadCache tza now frame st).1 = None /\
     ((loadCache tza now frame st).2 = st \/
      (loadCache tza now frame st).2 = addLog (LogCacheExpired t) st) /\
     (truthy_data d = true -> t <> 0 ->
      (loadCache tza now frame st).2 = addLog (LogCacheExpired t) st)) /\
  localStorage (loadCache tza now frame st).2 = localStorage st.
Proof.
  cbv zeta. split; [|split].
  - intros e st'. unfold loadCache.
    destruct (cache (localStorage st) !! frame) as [[text | d t]|]; [| |discriminate].
    + destruct (text =? "")%string; discriminate.
    + destruct d as [d|], t as [t|]; simpl; try discriminate.
      destruct (Z.eqb_spec t 0); simpl; [discriminate|].
      destruct (Z.ltb_spec t (getLatestCheckpoint tza now)); [discriminate|].
      intros [= <- <-]. exists d, t. auto.
  - intros d t Hcell Hlt. unfold loadCache. rewrite Hcell.
    destruct d as [d|]; simpl.
    + destruct (Z.eqb_spec t 0); simpl.
      * split; [reflexivity|]. split; [auto|]. intros _ Hne. contradiction.
      * destruct (Z.ltb_spec t (getLatestCheckpoint tza now)); [|lia].
        simpl. auto.
    + split; [reflexivity|]. split; [auto|]. discriminate.
  - apply localStorage_loadCache.
Qed.

Lemma loadCache_returns_fresh_entries_only_witness :
  let st := initial_state (mkStorage {[ TF_7d := CacheJson (Some []) (Some 5) ]} None) in
  (loadCache 0 1700000000000 TF_7d st).1 = None /\
  (loadCache 0 1700000000000 TF_7d st).2 = addLog (LogCacheExpired 5) st.
Proof.
  cbv zeta.
  pose proof (loadCache_returns_fresh_entries_only 0 1700000000000 TF_7d
                (initial_state (mkStorage {[ TF_7d := CacheJson (Some []) (Some 5) ]} None)))
    as (_ & Hstale & _).
  destruct (Hstale (Some []) 5) as (Hnone & _ & Hlog);
    [reflexivity | reflexivity |].
  split; [exact Hnone | apply Hlog; [reflexivity | discriminate]].
Defined.

(** ** Scan orchestrator *)

Lemma handleScan_fulfilled_stale p results td ts st :
  activeTabRef st <> scan_frame p ->
  handleScan_fulfilled p results td ts st
  = console_write (ConsoleScanDiscarded (scan_frame p)) st.
Proof.
  intros Hne. unfold handleScan_fulfilled.
  destruct (decide (activeTabRef st <> scan_frame p)); [reflexivity | contradiction].
Qed.

Lemma handleScan_rejected_stale p error st :
  activeTabRef st <> scan_frame p ->
  handleScan_rejected p error st = Returned st.
Proof.
  intros Hne. unfold handleScan_rejected.
  destruct (decide (activeTabRef st <> scan_frame p)); [reflexivity | contradiction].
Qed.

Lemma handleScan_fulfilled_active p results td ts st :
  activeTabRef st = scan_frame p ->
  handleScan_fulfilled p results td ts st
  = addLog (LogScanDone (td - scan_start p) (length results))
      (setStatus COMPLETE (saveCache ts (scan_frame p) results (setRepos (Some results) st))).
Proof.
  intros Heq. unfold handleScan_fulfilled.
  destruct (decide (activeTabRef st <> scan_frame p)); [contradiction | reflexivity].
Qed.

Lemma saveCache_cell ts frame d st :
  cache (localStorage (saveCache ts frame d st)) !! frame
  = Some (CacheJson (Some d) (Some ts)).
Proof.
  unfold saveCache. simpl.
  destruct (decide (activeTabRef st = frame)); simpl; apply lookup_insert_eq.
Qed.

Lemma saveCache_repos ts frame d st :
  repos (saveCache ts frame d st) = repos st.
Proof.
  unfold saveCache. simpl. destruct (decide (activeTabRef st = frame)); reflexivity.
Qed.

(** C1, as the code has it: a scan for window [W] whose fetch settles
    (with a result or with an error) while the active-window pointer holds
    another window changes nothing on display and writes nothing to
    storage. The guard compares windows only: a scan for [W] that settles
    while [W] is the active window is applied - its result is displayed and
    written to the cache cell of [W] - whichever request for [W] came
    last. *)
Theorem stale_scan_is_discarded (tza : Z) (sys : System) (i : nat) (p : Pending) :
  inflight sys !! i = Some p ->
  (activeTabRef (app sys) <> scan_frame p ->
     forall e, (exists results td ts, e = Fulfilled i results td ts) \/
               (exists error, e = Rejected i error) ->
       display (app (step tza e sys)) = display (app sys) /\
       localStorage (app (step tza e sys)) = localStorage (app sys)) /\
  (activeTabRef (app sys) = scan_frame p ->
     forall results td ts,
       let st' := app (step tza (Fulfilled i results td ts) sys) in
       repos st' = Some results /\
       status st' = COMPLETE /\
       cache (localStorage st') !! scan_frame p
       = Some (CacheJson (Some results) (Some ts))).
Proof.
  intros Hp. split.
  - intros Hne e [(results & td & ts & ->) | (error & ->)]; simpl; rewrite Hp; simpl.
    + rewrite handleScan_fulfilled_stale by assumption. split; reflexivity.
    + rewrite handleScan_rejected_stale by assumption. split; reflexivity.
  - intros Heq results td ts. simpl. rewrite Hp. simpl.
    rewrite handleScan_fulfilled_active by assumption.
    split; [|split].
    + simpl. apply saveCache_repos.
    + reflexivity.
    + simpl. apply saveCache_cell.
Qed.

Lemma stale_scan_is_discarded_witness :
  let sys := run 0 [ClickTab TF_7d 1 2] (boot 0 0 0 (mkStorage ∅ None)) in
  display (app (step 0 (Fulfilled 0 [sample_repo "a/b" "x"] 3 4) sys))
  = display (app sys) /\
  repos (app (step 0 (Fulfilled 1 [sample_repo "a/b" "x"] 3 4) sys))
  = Some [sample_repo "a/b" "x"].
Proof.
  cbv zeta. split.
  - pose proof (stale_scan_is_discarded 0
      (run 0 [ClickTab TF_7d 1 2] (boot 0 0 0 (mkStorage ∅ None)))
      0%nat (mkPending TF_3d false 0) eq_refl) as [Hstale _].
    apply Hstale; [discriminate | left; eauto].
  - pose proof (stale_scan_is_discarded 0
      (run 0 [ClickTab TF_7d 1 2] (boot 0 0 0 (mkStorage ∅ None)))
      1%nat (mkPending TF_7d false 2) eq_refl) as [_ Hactive].
    apply Hactive. reflexivity.
Defined.

(** C1 as written fails. The application mounts on an empty cache and
    scans the 3-day window; the 3-day tab is clicked again and that second
    scan completes; the refresh button, enabled again, is pressed. The
    forced scan completes with [c/d], then the scan started at mount
    completes with [a/b]: it passes the guard, and [a/b] replaces [c/d] on
    display and in the cache. *)
Lemma forced_refresh_is_overwritten :
  (let sys1 := run 0 overlapping_refresh (boot 0 0 1 (mkStorage ∅ None)) in
   let sys2 := step 0 (Fulfilled 1 [sample_repo "c/d" "forced"] 40 41) sys1 in
   let sys3 := step 0 (Fulfilled 0 [sample_repo "a/b" "prior"] 50 51) sys2 in
   inflight sys1 = [mkPending TF_3d false 1; mkPending TF_3d true 31] /\
   repos (app sys2) = Some [sample_repo "c/d" "forced"] /\
   cache (localStorage (app sys2)) !! TF_3d
   = Some (CacheJson (Some [sample_repo "c/d" "forced"]) (Some 41)) /\
   repos (app sys3) = Some [sample_repo "a/b" "prior"] /\
   cache (localStorage (app sys3)) !! TF_3d
   = Some (CacheJson (Some [sample_repo "a/b" "prior"]) (Some 51))) /\
  ~ forced_refresh_not_overwritten.
Proof.
  split; [vm_compute; repeat split; reflexivity|].
  intros H.
  specialize (H 0 0 1 (mkStorage ∅ None) overlapping_refresh 0%nat 1%nat
                (mkPending TF_3d false 1) (mkPending TF_3d true 31)
                [sample_repo "a/b" "prior"] [sample_repo "c/d" "forced"] 50 51 40 41).
  cbv zeta in H.
  destruct H as [Hrepos _];
    [vm_compute; reflexivity | vm_compute; reflexivity | lia
    | reflexivity | reflexivity | reflexivity |].
  vm_compute in Hrepos. discriminate Hrepos.
Qed.

(** On a failed scan of the active window the stored entry, when it
    parses, is put on display whatever its age. *)
Lemma handleScan_rejected_restores_stale p error st d t :
  activeTabRef st = scan_frame p ->
  cache (localStorage st) !! scan_frame p = Some (CacheJson d t) ->
  exists st', handleScan_rejected p error st = Returned st' /\
    status st' = ERROR /\ repos st' = d /\ lastUpdated st' = t.
Proof.
  intros Heq Hcell. unfold handleScan_rejected.
  destruct (decide (activeTabRef st <> scan_frame p)); [contradiction|].
  destruct (message error =? "")%string; simpl; rewrite Hcell;
    eexists; (split; [reflexivity|]); simpl; auto.
Qed.

(** The [catch] block parses the stored text without a guard of its own:
    a text that is not JSON makes the exception escape [handleScan]. *)
Lemma handleScan_rejected_corrupt p error st text :
  activeTabRef st = scan_frame p ->
  cache (localStorage st) !! scan_frame p = Some (CacheCorrupt text) ->
  text <> ""%string ->
  exists st', handleScan_rejected p error st = Threw st' /\ status st' = ERROR /\
    repos st' = repos st.
Proof.
  intros Heq Hcell Hne. unfold handleScan_rejected.
  destruct (decide (activeTabRef st <> scan_frame p)); [contradiction|].
  apply String.eqb_neq in Hne.
  destruct (message error =? "")%string; simpl; rewrite Hcell, Hne;
    eexists; (split; [reflexivity|]); simpl; auto.
Qed.

(** C7 at its failing input: the cache cell of the 3-day window holds the
    text [oops]. On mount the scan of that window reads the cell through
    [loadCache], which swallows the parse error and reports a miss; the
    fetch then fails, and the [catch] block of [handleScan] reads the same
    cell, where the parse error escapes instead of being treated as an
    absent entry. *)
Theorem handleScan_rejected_throws_on_corrupt_cache :
  let s := mkStorage {[ TF_3d := CacheCorrupt "oops" ]} None in
  let sys := boot 0 1700000000000 1700000000001 s in
  (loadCache 0 1700000000000 TF_3d (initial_state s)).1 = None /\
  inflight sys = [mkPending TF_3d false 1700000000001] /\
  status (app sys) = SCANNING /\
  exists st', handleScan_rejected (mkPending TF_3d false 1700000000001)
                (mkJsError "network down") (app sys) = Threw st' /\
              status st' = ERROR /\ repos st' = Some [].
Proof.
  cbv zeta. split; [vm_compute; reflexivity|]. split; [vm_compute; reflexivity|].
  split; [vm_compute; reflexivity|].
  eexists. split; [vm_compute; reflexivity|]. split; reflexivity.
Qed.

(** ** Favorites vault *)

Section Toggle.
Variable repo : Repo.

Lemma item_names_cons (f : FavItem) (l : list FavItem) :
  item_names (f :: l)
  = match item_name f with
    | Some n => n :: item_names l
    | None => item_names l
    end.
Proof. reflexivity. Qed.

Lemma item_names_app (l1 l2 : list FavItem) :
  item_names (l1 ++ l2) = item_names l1 ++ item_names l2.
Proof. apply omap_app. Qed.

Lemma existsb_same_name_In (l : list FavItem) :
  existsb (same_name repo) l = true <-> In (name repo) (item_names l).
Proof.
  induction l as [|f l IH]; [simpl; split; [discriminate | tauto]|].
  cbn [existsb]. rewrite item_names_cons, orb_true_iff, IH. unfold same_name.
  destruct (item_name f) as [n|]; simpl.
  - rewrite String.eqb_eq. reflexivity.
  - split; [intros [H|H]; [discriminate | assumption] | auto].
Qed.

Lemma filter_absent (l : list FavItem) :
  ~ In (name repo) (item_names l) -> List.filter (other_name repo) l = l.
Proof.
  induction l as [|f l IH]; [reflexivity|].
  cbn [List.filter]. rewrite item_names_cons. unfold other_name at 1, same_name.
  destruct (item_name f) as [n|]; simpl.
  - intros Hnot. destruct (String.eqb_spec n (name repo)) as [Heq|Hne]; simpl.
    + exfalso. apply Hnot. auto.
    + f_equal. apply IH. tauto.
  - intros Hnot. f_equal. apply IH. assumption.
Qed.

Lemma names_of_filter (l : list FavItem) (n : string) :
  In n (item_names (List.filter (other_name repo) l))
  <-> In n (item_names l) /\ n <> name repo.
Proof.
  induction l as [|f l IH]; [simpl; tauto|].
  cbn [List.filter]. rewrite (item_names_cons f l).
  unfold other_name at 1, same_name.
  destruct (item_name f) as [m|] eqn:Hf; cbn [negb].
  - destruct (String.eqb_spec m (name repo)) as [->|Hne]; cbn [negb].
    + rewrite IH. cbn [In]. split; [tauto|].
      intros [[<-|H] Hn]; [contradiction | tauto].
    + rewrite item_names_cons, Hf. cbn [In]. rewrite IH.
      split; [intros [<-|H]; tauto | tauto].
  - rewrite item_names_cons, Hf. apply IH.
Qed.

Lemma filter_removes_name (l : list FavItem) :
  existsb (same_name repo) (List.filter (other_name repo) l) = false.
Proof.
  apply not_true_is_false. rewrite existsb_same_name_In, names_of_filter. tauto.
Qed.

Lemma filter_append_permutation (l : list FavItem) :
  List.NoDup (item_names l) -> In (FavRecord repo) l ->
  Permutation (List.filter (other_name repo) l ++ [FavRecord repo]) l.
Proof.
  induction l as [|f l IH]; [simpl; tauto|].
  cbn [List.filter]. rewrite item_names_cons. intros Hnd Hin.
  destruct Hin as [-> | Hin].
  - simpl in Hnd. apply NoDup_cons_iff in Hnd as [Hfresh Hnd].
    unfold other_name at 1, same_name. simpl. rewrite String.eqb_refl. simpl.
    rewrite filter_absent by assumption.
    symmetry. apply Permutation_cons_append.
  - assert (Hkeep : other_name repo f = true).
    { unfold other_name, same_name. destruct (item_name f) as [n|]; [|reflexivity].
      apply NoDup_cons_iff in Hnd as [Hfresh _].
      destruct (String.eqb_spec n (name repo)) as [->|]; [|reflexivity].
      exfalso. apply Hfresh.
      change (In (name repo) (omap item_name l)).
      apply list_elem_of_In, list_elem_of_omap.
      exists (FavRecord repo). split; [apply list_elem_of_In; assumption | reflexivity]. }
    rewrite Hkeep. simpl. constructor. apply IH; [|assumption].
    destruct (item_name f); [apply NoDup_cons_iff in Hnd; tauto | assumption].
Qed.

End Toggle.

Lemma toggleFavorite_favorites repo st :
  favorites (toggleFavorite repo st)
  = if existsb (same_name repo) (favorites st)
    then List.filter (other_name repo) (favorites st)
    else favorites st ++ [FavRecord repo].
Proof.
  unfold toggleFavorite. destruct (existsb (same_name repo) (favorites st)); reflexivity.
Qed.

Lemma toggleFavorite_persists repo st :
  vault (localStorage (toggleFavorite repo st))
  = Some (FavArray (favorites (toggleFavorite repo st))).
Proof.
  unfold toggleFavorite. destruct (existsb (same_name repo) (favorites st)); reflexivity.
Qed.

Lemma same_name_ext repo repo' :
  name repo' = name repo ->
  same_name repo' = same_name repo /\ other_name repo' = other_name repo.
Proof. intros H. unfold other_name, same_name. rewrite H. auto. Qed.

(** C6, as the code has it: two toggles with the same name restore the
    set of favorite names. When the name was absent the list comes back
    unchanged. When the name was present, every entry of that name is
    removed and the record of the second toggle is appended at the end; the
    contents are then the original ones up to order provided the names were
    unique and that record is the stored one. Each toggle writes the whole
    new list to storage. *)
Theorem toggleFavorite_twice (st : AppState) (repo repo' : Repo) :
  name repo' = name repo ->
  let st1 := toggleFavorite repo st in
  let st2 := toggleFavorite repo' st1 in
  (forall n, In n (favorite_names st2) <-> In n (favorite_names st)) /\
  (~ In (name repo) (favorite_names st) -> favorites st2 = favorites st) /\
  (In (name repo) (favorite_names st) ->
     favorites st2
     = List.filter (other_name repo) (favorites st) ++ [FavRecord repo']) /\
  (List.NoDup (favorite_names st) -> In (FavRecord repo') (favorites st) ->
     Permutation (favorites st2) (favorites st)) /\
  vault (localStorage st1) = Some (FavArray (favorites st1)) /\
  vault (localStorage st2) = Some (FavArray (favorites st2)).
Proof.
  intros Hname. cbv zeta. unfold favorite_names.
  destruct (same_name_ext _ _ Hname) as [Hsame Hother].
  assert (Habsent : ~ In (name repo) (item_names (favorites st)) ->
            favorites (toggleFavorite repo' (toggleFavorite repo st)) = favorites st).
  { intros Hnot.
    assert (Hex : existsb (same_name repo) (favorites st) = false)
      by (apply not_true_is_false; rewrite existsb_same_name_In; assumption).
    rewrite (toggleFavorite_favorites repo'), (toggleFavorite_favorites repo), Hex.
    rewrite Hsame, Hother.
    rewrite existsb_app. simpl. unfold same_name at 2. simpl. rewrite String.eqb_refl.
    rewrite orb_true_r. rewrite List.filter_app. simpl.
    unfold other_name at 2, same_name. simpl. rewrite String.eqb_refl. simpl.
    rewrite app_nil_r. apply filter_absent. assumption. }
  assert (Hpresent : In (name repo) (item_names (favorites st)) ->
            favorites (toggleFavorite repo' (toggleFavorite repo st))
            = List.filter (other_name repo) (favorites st) ++ [FavRecord repo']).
  { intros Hin. apply existsb_same_name_In in Hin.
    rewrite (toggleFavorite_favorites repo'), (toggleFavorite_favorites repo), Hin.
    rewrite Hsame.
    rewrite filter_removes_name. reflexivity. }
  split; [|split; [exact Habsent|split; [exact Hpresent|split; [|split]]]].
  - intros n.
    destruct (in_dec string_dec (name repo) (item_names (favorites st))) as [Hin|Hnot].
    + rewrite (Hpresent Hin). rewrite item_names_app, in_app_iff, names_of_filter.
      simpl. rewrite Hname. split.
      * intros [[H _] | [<- | []]]; assumption.
      * intros H. destruct (string_dec n (name repo)) as [->|Hne]; auto.
    + rewrite (Habsent Hnot). tauto.
  - intros Hnd Hin.
    assert (Hin' : In (name repo) (item_names (favorites st))).
    { rewrite <- Hname. apply list_elem_of_In, list_elem_of_omap.
      exists (FavRecord repo'). split; [apply list_elem_of_In; assumption | reflexivity]. }
    rewrite (Hpresent Hin'). rewrite <- Hother.
    apply filter_append_permutation; assumption.
  - apply toggleFavorite_persists.
  - apply toggleFavorite_persists.
Qed.

Lemma toggleFavorite_twice_witness :
  let st := setFavorites [FavRecord (sample_repo "a/b" "x"); FavRecord (sample_repo "c/d" "y")]
              (initial_state (mkStorage ∅ None)) in
  favorites (toggleFavorite (sample_repo "a/b" "z") (toggleFavorite (sample_repo "a/b" "x") st))
  = [FavRecord (sample_repo "c/d" "y"); FavRecord (sample_repo "a/b" "z")].
Proof.
  cbv zeta.
  pose proof (toggleFavorite_twice
                (setFavorites [FavRecord (sample_repo "a/b" "x");
                               FavRecord (sample_repo "c/d" "y")]
                   (initial_state (mkStorage ∅ None)))
                (sample_repo "a/b" "x") (sample_repo "a/b" "z") eq_refl)
    as (_ & _ & Hpresent & _).
  rewrite Hpresent; [reflexivity | simpl; auto].
Defined.

(** C6 as written fails: the favorites hold a record named [a/b] with
    description [x]; the card of a later scan carries a record of that name
    with description [z]. Toggling that card twice leaves the later record
    in the favorites, not the one that was there. *)
Lemma toggle_twice_changes_contents :
  (let st := setFavorites [FavRecord (sample_repo "a/b" "x")]
               (initial_state (mkStorage ∅ None)) in
   favorites (toggleFavorite (sample_repo "a/b" "z")
                (toggleFavorite (sample_repo "a/b" "z") st))
   = [FavRecord (sample_repo "a/b" "z")]) /\
  ~ toggle_twice_restores_contents.
Proof.
  split; [reflexivity|].
  intros H.
  specialize (H (setFavorites [FavRecord (sample_repo "a/b" "x")]
                   (initial_state (mkStorage ∅ None)))
                (sample_repo "a/b" "z") (FavRecord (sample_repo "a/b" "x"))).
  cbv zeta in H. simpl in H. destruct H as [_ H].
  destruct H as [H | []]; [auto | discriminate H].
Qed.

(** C9: when the stored favorites are in the old format, a list of name
    strings, mounting the application removes them from storage and the
    favorites start out empty. *)
Theorem App_mount_discards_legacy_favorites (tza now start : Z) (s : Storage)
    (first : string) (rest : list string) :
  vault s = Some (FavArray (map FavName (first :: rest))) ->
  let st := (App_mount tza now start (initial_state s)).1 in
  favorites st = [] /\ vault (localStorage st) = None.
Proof.
  intros Hvault. cbv zeta. unfold App_mount. simpl. rewrite Hvault.
  unfold handleScan. simpl.
  match goal with
  | |- context [loadCache ?a ?b ?c ?d] =>
      pose proof (localStorage_loadCache a b c d) as Hst;
      pose proof (loadCache_frame_state a b c d) as (_ & _ & _ & Hfav & _);
      destruct (loadCache a b c d) as [[cached|] st']
  end; simpl in *; rewrite Hfav, Hst; split; reflexivity.
Qed.

Lemma App_mount_discards_legacy_favorites_witness :
  let st := (App_mount 0 0 0
               (initial_state
                  (mkStorage ∅ (Some (FavArray [FavName "a/b"; FavName "c/d"]))))).1 in
  favorites st = [] /\ vault (localStorage st) = None.
Proof.
  apply (App_mount_discards_legacy_favorites 0 0 0
           (mkStorage ∅ (Some (FavArray [FavName "a/b"; FavName "c/d"])))
           "a/b" ["c/d"%string]).
  reflexivity.
Defined.

(** ** String operations *)

Module JsStringFacts.
Import JsString.
Local Open Scope string_scope.

Lemma length_app (a b : string) :
  String.length (a ++ b) = (String.length a + String.length b)%nat.
Proof. induction a as [|c a IH]; simpl; [reflexivity | rewrite IH; reflexivity]. Qed.

Lemma app_String (c : ascii) (a b : string) : String c a ++ b = String c (a ++ b).
Proof. reflexivity. Qed.

Lemma app_eq_self (r s : string) : r ++ s = s -> r = "".
Proof.
  intros H. apply (f_equal String.length) in H. rewrite length_app in H.
  destruct r; [reflexivity | simpl in H; lia].
Qed.

Lemma strip_prefix_spec (p s r : string) :
  strip_prefix p s = Some r <-> s = p ++ r.
Proof.
  revert s. induction p as [|a p IH]; intros s; simpl.
  - split; [intros [= ->]; reflexivity | intros ->; reflexivity].
  - destruct s as [|b s]; [split; discriminate|].
    destruct (Ascii.eqb_spec a b) as [->|Hne].
    + rewrite IH. split; [intros ->; reflexivity | intros [= ->]; reflexivity].
    + split; [discriminate | intros [= -> _]; contradiction].
Qed.

Lemma strip_suffix_spec (suf s r : string) :
  strip_suffix suf s = Some r <-> s = r ++ suf.
Proof.
  revert r. induction s as [|c s IH]; intros r; cbn [strip_suffix].
  - destruct (String.eqb_spec "" suf) as [<-|Hne].
    + split; [intros [= <-]; reflexivity|].
      intros H. destruct r; [reflexivity | discriminate H].
    + split; [discriminate|]. intros H. destruct r; [exfalso; exact (Hne H) | discriminate H].
  - destruct (String.eqb_spec (String c s) suf) as [<-|Hne].
    + split; [intros [= <-]; reflexivity|].
      intros H. symmetry in H. apply app_eq_self in H. subst r. reflexivity.
    + destruct r as [|c' r'].
      * split; [|intros H; exfalso; exact (Hne H)].
        destruct (strip_suffix suf s); discriminate.
      * simpl. destruct (strip_suffix suf s) as [t|]; simpl.
        -- split.
           ++ intros [= -> ->]. rewrite app_String. f_equal. apply IH. reflexivity.
           ++ intros [= -> H]. apply IH in H. injection H as ->. reflexivity.
        -- split; [discriminate|]. intros [= -> H]. apply IH in H. discriminate.
Qed.

Lemma replace_github_url_http (rest : string) :
  replace_github_url ("http://github.com/" ++ rest) = rest.
Proof. reflexivity. Qed.

Lemma replace_github_url_https (rest : string) :
  replace_github_url ("https://github.com/" ++ rest) = rest.
Proof. reflexivity. Qed.

Lemma replace_github_url_other (s : string) :
  (forall rest, s <> "http://github.com/" ++ rest) ->
  (forall rest, s <> "https://github.com/" ++ rest) ->
  replace_github_url s = s.
Proof.
  intros H1 H2. unfold replace_github_url.
  destruct (strip_prefix "http://github.com/" s) as [r|] eqn:E1.
  { apply strip_prefix_spec in E1. exfalso. exact (H1 r E1). }
  destruct (strip_prefix "https://github.com/" s) as [r|] eqn:E2.
  { apply strip_prefix_spec in E2. exfalso. exact (H2 r E2). }
  reflexivity.
Qed.

Lemma replace_dot_git_suffix (s : string) : replace_dot_git (s ++ ".git") = s.
Proof.
  unfold replace_dot_git.
  destruct (strip_suffix ".git" (s ++ ".git")) as [r|] eqn:E.
  - apply strip_suffix_spec in E.
    revert r E. induction s as [|c s IH]; intros r E.
    + symmetry in E. apply app_eq_self in E. congruence.
    + destruct r as [|c' r]; simpl in E.
      * apply (f_equal String.length) in E. simpl in E. rewrite length_app in E.
        simpl in E. lia.
      * injection E as -> E. f_equal. apply IH. assumption.
  - assert (H : strip_suffix ".git" (s ++ ".git") = Some s)
      by (apply strip_suffix_spec; reflexivity).
    congruence.
Qed.

Lemma replace_dot_git_other (s : string) :
  (forall r, s <> r ++ ".git") -> replace_dot_git s = s.
Proof.
  intros H. unfold replace_dot_git.
  destruct (strip_suffix ".git" s) as [r|] eqn:E; [|reflexivity].
  apply strip_suffix_spec in E. exfalso. exact (H r E).
Qed.

Lemma drop_trailing_slash_suffix (s : string) : drop_trailing_slash (s ++ "/") = s.
Proof.
  unfold drop_trailing_slash.
  destruct (strip_suffix "/" (s ++ "/")) as [r|] eqn:E.
  - apply strip_suffix_spec in E.
    revert r E. induction s as [|c s IH]; intros r E.
    + symmetry in E. apply app_eq_self in E. congruence.
    + destruct r as [|c' r]; simpl in E.
      * apply (f_equal String.length) in E. simpl in E. rewrite length_app in E.
        simpl in E. lia.
      * injection E as -> E. f_equal. apply IH. assumption.
  - assert (H : strip_suffix "/" (s ++ "/") = Some s)
      by (apply strip_suffix_spec; reflexivity).
    congruence.
Qed.

Lemma drop_trailing_slash_other (s : string) :
  (forall r, s <> r ++ "/") -> drop_trailing_slash s = s.
Proof.
  intros H. unfold drop_trailing_slash.
  destruct (strip_suffix "/" s) as [r|] eqn:E; [|reflexivity].
  apply strip_suffix_spec in E. exfalso. exact (H r E).
Qed.

End JsStringFacts.

(** ** Candidate validation *)

Section Pipeline.
Variable github : string -> FetchResult.

(** The loop, started with [validRepos] holding at most the target,
    ends with the first [TARGET_COUNT] of what it held followed by the
    survivors among the candidates. *)
Lemma validation_loop_take (cs validRepos : list Repo) :
  (length validRepos <= TARGET_COUNT)%nat ->
  validation_loop github cs validRepos
  = take TARGET_COUNT (validRepos ++ survivors github cs).
Proof.
  revert validRepos. induction cs as [|c cs IH]; intros acc Hlen;
    cbn [validation_loop].
  - change (survivors github []) with (@nil Repo).
    rewrite app_nil_r, take_ge by assumption. reflexivity.
  - destruct (Nat.leb_spec TARGET_COUNT (length acc)) as [Hfull|Hroom].
    + rewrite take_app_length' by lia. reflexivity.
    + change (survivors github (c :: cs))
        with (match validate github c with
              | Some e => e :: survivors github cs
              | None => survivors github cs
              end).
      destruct (validate github c) as [e|].
      * rewrite IH by (rewrite length_app; simpl; lia).
        rewrite <- app_assoc. reflexivity.
      * apply IH. assumption.
Qed.

Lemma fetchTrendingRepos_survivors (cs : list Repo) :
  fetchTrendingRepos github cs
  = match survivors github cs with
    | [] => NoValidTargets
    | _ :: _ => Accepted (take TARGET_COUNT (survivors github cs))
    end.
Proof.
  unfold fetchTrendingRepos.
  rewrite validation_loop_take by (simpl; unfold TARGET_COUNT; lia).
  simpl. destruct (survivors github cs); reflexivity.
Qed.

(** The survivors correspond, one to one and in order, to a
    subsequence of the candidates. *)
Lemma take_survivors_sublist (n : nat) (cs : list Repo) :
  exists kept, sublist kept cs /\
    Forall2 (fun c e => validate github c = Some e) kept (take n (survivors github cs)).
Proof.
  revert n. induction cs as [|c cs IH]; intros n.
  - exists []. split; [constructor|]. destruct n; constructor.
  - unfold survivors in *. simpl.
    destruct (validate github c) as [e|] eqn:E.
    + destruct n as [|n].
      * exists []. split; [apply sublist_nil_l | constructor].
      * destruct (IH n) as (kept & Hsub & Hall).
        exists (c :: kept). split; [constructor; assumption|].
        simpl. constructor; assumption.
    + destruct (IH n) as (kept & Hsub & Hall).
      exists kept. split; [constructor; assumption | assumption].
Qed.

Lemma normalize_None_iff (c : Repo) :
  normalize c = None <-> JsString.includes "/" (cleanName (name c)) = false.
Proof.
  unfold normalize.
  destruct (String.eqb_spec (name c) "") as [->|Hne].
  - split; reflexivity.
  - destruct (JsString.includes "/" (cleanName (name c))); simpl;
      split; congruence.
Qed.

Lemma normalize_Some (c : Repo) (clean : string) :
  normalize c = Some clean ->
  clean = cleanName (name c) /\ JsString.includes "/" clean = true.
Proof.
  unfold normalize.
  destruct (name c =? "")%string; [discriminate|].
  destruct (JsString.includes "/" (cleanName (name c))) eqn:E; simpl; [|discriminate].
  intros [= <-]. auto.
Qed.

Lemma validate_not_found (c : Repo) :
  gets_not_found github c -> validate github c = None.
Proof.
  intros (clean & body & Hn & Hg). unfold validate. rewrite Hn, Hg. reflexivity.
Qed.

Lemma validate_rate_limited (c : Repo) (clean : string) (status : Z) body :
  normalize c = Some clean ->
  github clean = HttpResponse status body ->
  status = 403 \/ status = 429 ->
  validate github c = Some (rate_limited_entry c clean).
Proof.
  intros Hn Hg Hs. unfold validate. rewrite Hn, Hg.
  destruct Hs as [-> | ->]; reflexivity.
Qed.

Lemma validate_metadata (c e : Repo) :
  gets_metadata github c e -> validate github c = Some e.
Proof.
  intros (clean & status & d & Hn & Hg & Hok & ->).
  unfold validate. rewrite Hn, Hg. unfold fetchRepoDetails.
  unfold response_ok in Hok. apply andb_true_iff in Hok as [H1 H2].
  apply Z.leb_le in H1, H2.
  destruct (Z.eqb_spec status 404); [lia|].
  destruct (Z.eqb_spec status 403); [lia|].
  destruct (Z.eqb_spec status 429); [lia|].
  simpl. unfold response_ok.
  destruct (Z.leb_spec 200 status); [|lia].
  destruct (Z.leb_spec status 299); [|lia].
  reflexivity.
Qed.

Lemma validate_name (c e : Repo) :
  validate github c = Some e ->
  name e = cleanName (name c) /\ JsString.includes "/" (name e) = true.
Proof.
  unfold validate. destruct (normalize c) as [clean|] eqn:Hn; [|discriminate].
  destruct (fetchRepoDetails (github clean)); [|discriminate].
  intros [= <-]. simpl. apply normalize_Some. assumption.
Qed.

Lemma survivors_app (l1 l2 : list Repo) :
  survivors github (l1 ++ l2) = survivors github l1 ++ survivors github l2.
Proof. apply omap_app. Qed.

Lemma fetchTrendingRepos_Accepted_sublist (cs l : list Repo) :
  fetchTrendingRepos github cs = Accepted l ->
  exists kept, sublist kept cs /\
    Forall2 (fun c e => validate github c = Some e) kept l.
Proof.
  rewrite fetchTrendingRepos_survivors.
  pose proof (take_survivors_sublist TARGET_COUNT cs) as Hs.
  destruct (survivors github cs); [discriminate|].
  intros [= <-]. exact Hs.
Qed.

Lemma survivors_all (cs es : list Repo) :
  Forall2 (fun c e => validate github c = Some e) cs es ->
  survivors github cs = es.
Proof.
  induction 1 as [|c e cs es Hc _ IH]; [reflexivity|].
  change (survivors github (c :: cs))
    with (match validate github c with
          | Some e => e :: survivors github cs
          | None => survivors github cs
          end).
  rewrite Hc, IH. reflexivity.
Qed.

End Pipeline.

(** C4: the accepted list is made of the candidates that survive
    validation, in their original relative order, up to the target of 10;
    a candidate whose lookup is answered 404 is dropped and takes no place
    among the 10. In particular ten candidates, one answered 404 and nine
    answered with metadata, give exactly the nine entries in order. *)
Theorem fetchTrendingRepos_keeps_survivors_in_order
    (github : string -> FetchResult) (cs : list Repo) :
  (forall c, gets_not_found github c -> validate github c = None) /\
  fetchTrendingRepos github cs
  = match survivors github cs with
    | [] => NoValidTargets
    | _ :: _ => Accepted (take TARGET_COUNT (survivors github cs))
    end /\
  (forall l, fetchTrendingRepos github cs = Accepted l ->
     exists kept, sublist kept cs /\
       Forall2 (fun c e => validate github c = Some e) kept l) /\
  (forall pre c post es,
     cs = pre ++ c :: post -> length cs = 10%nat ->
     gets_not_found github c ->
     Forall2 (gets_metadata github) (pre ++ post) es ->
     fetchTrendingRepos github cs = Accepted es /\ length es = 9%nat).
Proof.
  split; [apply validate_not_found|].
  split; [apply fetchTrendingRepos_survivors|].
  split.
  - apply fetchTrendingRepos_Accepted_sublist.
  - intros pre c post es -> Hlen Hnf Hall.
    assert (Hes : survivors github (pre ++ c :: post) = es).
    { change (c :: post) with ([c] ++ post).
      rewrite !survivors_app.
      assert (Hc : survivors github [c] = []).
      { unfold survivors. simpl. rewrite (validate_not_found github c Hnf). reflexivity. }
      rewrite Hc. simpl. rewrite <- survivors_app.
      apply survivors_all.
      eapply Forall2_impl; [exact Hall|].
      intros c' e. apply validate_metadata. }
    assert (Hlen9 : length es = 9%nat).
    { apply Forall2_length in Hall. rewrite <- Hall.
      rewrite !length_app in *. simpl in Hlen. lia. }
    rewrite fetchTrendingRepos_survivors, Hes.
    split; [|exact Hlen9].
    destruct es as [|e es]; [discriminate Hlen9|].
    rewrite take_ge by (unfold TARGET_COUNT; lia). reflexivity.
Qed.

(** C5: a candidate that the loop reaches before the target is met and
    whose lookup is answered 403 or 429 is accepted: its entry sits in the
    result after the entries accepted before it, carries the cleaned name
    and [isRateLimited = true], and keeps the candidate's own values in
    [lastPushedAt], [isArchived], [starsCount] and [language]. *)
Theorem rate_limited_candidate_is_accepted
    (github : string -> FetchResult) (pre post : list Repo) (c : Repo)
    (clean : string) (status : Z) (body : option GitHubData) :
  normalize c = Some clean ->
  github clean = HttpResponse status body ->
  status = 403 \/ status = 429 ->
  (length (survivors github pre) < TARGET_COUNT)%nat ->
  exists l e,
    fetchTrendingRepos github (pre ++ c :: post) = Accepted l /\
    l !! length (survivors github pre) = Some e /\
    name e = clean /\ isRateLimited e = Some true /\
    lastPushedAt e = lastPushedAt c /\ isArchived e = isArchived c /\
    starsCount e = starsCount c /\ language e = language c /\
    url e = url c /\ description e = description c /\
    starsTrend e = starsTrend c /\ tags e = tags c.
Proof.
  intros Hn Hg Hs Hroom.
  pose proof (validate_rate_limited github c clean status body Hn Hg Hs) as Hv.
  assert (Hsurv : survivors github (pre ++ c :: post)
                  = survivors github pre ++ rate_limited_entry c clean :: survivors github post).
  { change (c :: post) with ([c] ++ post). rewrite !survivors_app.
    unfold survivors at 2. simpl. rewrite Hv. reflexivity. }
  exists (take TARGET_COUNT (survivors github (pre ++ c :: post))),
         (rate_limited_entry c clean).
  split.
  - rewrite fetchTrendingRepos_survivors, Hsurv.
    destruct (survivors github pre); reflexivity.
  - split; [|simpl; repeat split; reflexivity].
    rewrite lookup_take_lt by assumption.
    rewrite Hsurv. apply list_lookup_middle. reflexivity.
Qed.

(** C8: the name is cleaned by removing a leading [http://github.com/]
    or [https://github.com/], then a trailing [.git], then surrounding
    white space, then one trailing slash; the candidate is dropped at this
    step exactly when the cleaned name contains no slash, and every
    accepted entry carries the cleaned name of its candidate. *)
Theorem candidate_names_are_normalized
    (github : string -> FetchResult) (cs : list Repo) :
  (forall raw, cleanName raw
     = JsString.drop_trailing_slash
         (JsString.trim (JsString.replace_dot_git (JsString.replace_github_url raw)))) /\
  (forall rest, JsString.replace_github_url ("http://github.com/" ++ rest) = rest /\
                JsString.replace_github_url ("https://github.com/" ++ rest) = rest) /\
  (forall s, JsString.replace_dot_git (s ++ ".git") = s) /\
  (forall s, JsString.drop_trailing_slash (s ++ "/") = s) /\
  (forall c, normalize c = None <->
             JsString.includes "/" (cleanName (name c)) = false) /\
  (forall c clean, normalize c = Some clean -> clean = cleanName (name c)) /\
  (forall l, fetchTrendingRepos github cs = Accepted l ->
     forall e, In e l ->
       exists c, In c cs /\ name e = cleanName (name c) /\
                 JsString.includes "/" (name e) = true).
Proof.
  split; [reflexivity|].
  split; [intros rest; split; reflexivity|].
  split; [apply JsStringFacts.replace_dot_git_suffix|].
  split; [apply JsStringFacts.drop_trailing_slash_suffix|].
  split; [apply normalize_None_iff|].
  split; [intros c clean H; apply (normalize_Some c clean H)|].
  intros l Hl e He.
  destruct (fetchTrendingRepos_Accepted_sublist github cs l Hl) as (kept & Hsub & Hall).
  apply list_elem_of_In, list_elem_of_lookup in He as [i Hi].
  destruct (Forall2_lookup_r _ _ _ _ _ Hall Hi) as (c & Hc & Hv).
  exists c. split.
  - apply list_elem_of_In. eapply elem_of_sublist; [|exact Hsub].
    eapply list_elem_of_lookup_2. exact Hc.
  - apply (validate_name github c e Hv).
Qed.

Example cleanName_url_and_git :
  cleanName "https://github.com/facebook/react.git" = "facebook/react"%string.
Proof. reflexivity. Qed.

Example cleanName_spaces_and_slash : cleanName " a/b/ " = "a/b"%string.
Proof. reflexivity. Qed.

Example cleanName_git_before_slash : cleanName "a/b.git/" = "a/b.git"%string.
Proof. reflexivity. Qed.

Example cleanName_no_owner : cleanName "http://github.com/react" = "react"%string.
Proof. reflexivity. Qed.

Lemma fetchTrendingRepos_keeps_survivors_in_order_witness :
  fetchTrendingRepos sample_github
    (sample_head ++ sample_repo "x/gone" "lost" :: sample_tail)
  = Accepted (map sample_entry (sample_head ++ sample_tail)) /\
  length (map sample_entry (sample_head ++ sample_tail)) = 9%nat.
Proof.
  pose proof (fetchTrendingRepos_keeps_survivors_in_order sample_github
                (sample_head ++ sample_repo "x/gone" "lost" :: sample_tail))
    as (_ & _ & _ & Hnine).
  apply (Hnine sample_head (sample_repo "x/gone" "lost") sample_tail).
  - reflexivity.
  - reflexivity.
  - exists "x/gone"%string, None. split; reflexivity.
  - repeat (constructor;
            [eexists _, 200, sample_metadata; repeat split; reflexivity|]).
    constructor.
Defined.

Lemma rate_limited_candidate_is_accepted_witness :
  exists l e,
    fetchTrendingRepos sample_github
      (sample_head ++ sample_repo "x/busy.git" "busy" :: sample_tail) = Accepted l /\
    l !! 3%nat = Some e /\ name e = "x/busy"%string /\ isRateLimited e = Some true /\
    lastPushedAt e = None.
Proof.
  destruct (rate_limited_candidate_is_accepted sample_github sample_head sample_tail
              (sample_repo "x/busy.git" "busy") "x/busy" 403 None)
    as (l & e & Hl & He & Hname & Hflag & Hpush & _).
  - reflexivity.
  - reflexivity.
  - left. reflexivity.
  - vm_compute. lia.
  - exists l, e. repeat split; assumption.
Defined.

Lemma candidate_names_are_normalized_witness :
  normalize (sample_repo "https://github.com/react" "no owner") = None /\
  exists c, In c (sample_head ++ sample_tail) /\
            "o/r0"%string = cleanName (name c).
Proof.
  pose proof (candidate_names_are_normalized sample_github (sample_head ++ sample_tail))
    as (_ & _ & _ & _ & Hdrop & _ & Hnames).
  split.
  - apply Hdrop. reflexivity.
  - destruct (Hnames (map sample_entry (sample_head ++ sample_tail)) eq_refl
                (sample_entry (sample_repo "https://github.com/o/r0.git" "zero")))
      as (c & Hin & Hname & _).
    + left. reflexivity.
    + exists c. split; assumption.
Defined.

(** ** Status tiers *)

Lemma tier_of_days_bands (days : Z) :
  (days <= 3 -> tier_of_days days = TierCritical) /\
  (3 < days <= 7 -> tier_of_days days = TierOnline) /\
  (7 < days <= 30 -> tier_of_days days = TierStable) /\
  (30 < days <= 90 -> tier_of_days days = TierIdle) /\
  (90 < days <= 180 -> tier_of_days days = TierDecay) /\
  (180 < days -> tier_of_days days = TierOffline).
Proof.
  unfold tier_of_days.
  destruct (Z.leb_spec days 3), (Z.leb_spec days 7), (Z.leb_spec days 30),
    (Z.leb_spec days 90), (Z.leb_spec days 180);
    repeat split; intros; try reflexivity; lia.
Qed.

(** C10: the tier depends only on [isArchived], [isRateLimited],
    [lastPushedAt] and the current time; an archived repository is frozen;
    otherwise a rate-limited one is secure; otherwise one without a
    last-push time is unknown; otherwise the whole number of days since the
    last push selects critical (up to 3), online (up to 7), stable (up to
    30), idle (up to 90), decaying (up to 180) or offline (beyond). *)
Theorem getStatusInfo_tiers (parse : string -> option Z) (repo : Repo) (now : Z) :
  (forall repo', isArchived repo' = isArchived repo ->
                 isRateLimited repo' = isRateLimited repo ->
                 lastPushedAt repo' = lastPushedAt repo ->
                 getStatusInfo parse repo' now = getStatusInfo parse repo now) /\
  (isArchived repo = Some true -> getStatusInfo parse repo now = TierFrozen) /\
  (isArchived repo <> Some true -> isRateLimited repo = Some true ->
     getStatusInfo parse repo now = TierSecure) /\
  (isArchived repo <> Some true -> isRateLimited repo <> Some true ->
     (lastPushedAt repo = None \/ lastPushedAt repo = Some ""%string) ->
     getStatusInfo parse repo now = TierUnknown) /\
  (isArchived repo <> Some true -> isRateLimited repo <> Some true ->
     forall s lastPush,
       lastPushedAt repo = Some s -> s <> ""%string -> parse s = Some lastPush ->
       let daysSincePush := (now - lastPush) / msPerDay in
       getStatusInfo parse repo now = tier_of_days daysSincePush /\
       (daysSincePush <= 3 -> getStatusInfo parse repo now = TierCritical) /\
       (3 < daysSincePush <= 7 -> getStatusInfo parse repo now = TierOnline) /\
       (7 < daysSincePush <= 30 -> getStatusInfo parse repo now = TierStable) /\
       (30 < daysSincePush <= 90 -> getStatusInfo parse repo now = TierIdle) /\
       (90 < daysSincePush <= 180 -> getStatusInfo parse repo now = TierDecay) /\
       (180 < daysSincePush -> getStatusInfo parse repo now = TierOffline)).
Proof.
  assert (Hfalse : forall b : option bool, b <> Some true -> truthy_bool b = false).
  { intros [[|]|] H; [contradiction | reflexivity | reflexivity]. }
  split; [|split; [|split; [|split]]].
  - intros repo' Ha Hr Hp. unfold getStatusInfo. rewrite Ha, Hr, Hp. reflexivity.
  - intros Ha. unfold getStatusInfo. rewrite Ha. reflexivity.
  - intros Ha Hr. unfold getStatusInfo. rewrite (Hfalse _ Ha), Hr. reflexivity.
  - intros Ha Hr Hp. unfold getStatusInfo. rewrite (Hfalse _ Ha), (Hfalse _ Hr).
    destruct Hp as [-> | ->]; reflexivity.
  - intros Ha Hr s lastPush Hp Hs Hparse. cbv zeta.
    assert (Htier : getStatusInfo parse repo now
                    = tier_of_days ((now - lastPush) / msPerDay)).
    { unfold getStatusInfo. rewrite (Hfalse _ Ha), (Hfalse _ Hr), Hp. simpl.
      apply String.eqb_neq in Hs. rewrite Hs. simpl. rewrite Hparse. reflexivity. }
    rewrite Htier. split; [reflexivity|].
    apply tier_of_days_bands.
Qed.

Lemma getStatusInfo_tiers_witness :
  getStatusInfo (fun _ => Some 0)
    (mkRepo "a/b" "" "" "" [] (Some "1970-01-01T00:00:00Z"%string) None None None None)
    (5 * msPerDay + 1) = TierOnline.
Proof.
  pose proof (getStatusInfo_tiers (fun _ => Some 0)
    (mkRepo "a/b" "" "" "" [] (Some "1970-01-01T00:00:00Z"%string) None None None None)
    (5 * msPerDay + 1)) as (_ & _ & _ & _ & Hdays).
  destruct (Hdays ltac:(discriminate) ltac:(discriminate)
              "1970-01-01T00:00:00Z"%string 0 eq_refl ltac:(discriminate) eq_refl)
    as (_ & _ & Honline & _).
  apply Honline. vm_compute. split; congruence.
Defined.

(** * Further properties of the code *)

(** ** Checkpoints and the cache *)

Lemma checkpoint_le_later (tza now1 now2 : Z) :
  now1 <= now2 -> getLatestCheckpoint tza now1 <= getLatestCheckpoint tza now2.
Proof.
  intros Hle.
  destruct (getLatestCheckpoint_latest tza now1) as (Hb1 & Hle1 & _).
  destruct (getLatestCheckpoint_latest tza now2) as (_ & _ & Hmax2).
  apply Hmax2; [assumption | lia].
Qed.



Lemma getLatestCheckpoint_lag (tza now : Z) :
  now - twelve_hours < getLatestCheckpoint tza now <= now.
Proof.
  destruct (getLatestCheckpoint_cases tza now) as (Hbefore & Hday & Hevening).
  pose proof (today_bounds tza now) as [Hlo Hhi].
  unfold twelve_hours.
  unfold at_hour, UTC, MakeDate, MakeTime, msPerHour, msPerDay in *.
  destruct (Z.lt_ge_cases now (today tza now * 86400000 + (5 * 3600000 + 0 * 60000 + 0 * 1000 + 0) - tza))
    as [Hc | Hc].
  - rewrite (Hbefore Hc). lia.
  - destruct (Z.lt_ge_cases now (today tza now * 86400000 + (17 * 3600000 + 0 * 60000 + 0 * 1000 + 0) - tza))
      as [Hc' | Hc'].
    + rewrite (Hday (conj Hc Hc')). lia.
    + rewrite (Hevening Hc'). lia.
Qed.



Lemma loadCache_expired (tza now : Z) (frame : TimeFrame) (st : AppState)
    (d : option (list Repo)) (t : Z) :
  cache (localStorage st) !! frame = Some (CacheJson d (Some t)) ->
  t < getLatestCheckpoint tza now ->
  (loadCache tza now frame st).1 = None.
Proof.
  intros Hcell Hlt. unfold loadCache. rewrite Hcell.
  destruct d as [d|]; simpl; [|reflexivity].
  destruct (t =? 0); simpl; [reflexivity|].
  destruct (Z.ltb_spec t (getLatestCheckpoint tza now)); [reflexivity | lia].
Qed.

(** X3: once an entry has expired it stays expired: if its timestamp is
    before the checkpoint at some time, [loadCache] returns nothing for it
    at that time and at every later time. *)
Theorem loadCache_stays_expired (tza now1 now2 : Z) (frame : TimeFrame)
    (st : AppState) (d : option (list Repo)) (t : Z) :
  cache (localStorage st) !! frame = Some (CacheJson d (Some t)) ->
  t < getLatestCheckpoint tza now1 ->
  now1 <= now2 ->
  (loadCache tza now2 frame st).1 = None.
Proof.
  intros Hcell Hlt Hle.
  pose proof (checkpoint_le_later tza now1 now2 Hle) as Hmono.
  apply (loadCache_expired tza now2 frame st d t Hcell). lia.
Qed.

Lemma loadCache_stays_expired_witness :
  (loadCache 0 99999999 TF_7d
     (initial_state (mkStorage {[ TF_7d := CacheJson (Some []) (Some 5) ]} None))).1 = None.
Proof.
  apply (loadCache_stays_expired 0 18000000 99999999 TF_7d _ (Some []) 5).
  - reflexivity.
  - vm_compute. reflexivity.
  - lia.
Defined.

(** X4: what [saveCache] stores, [loadCache] gives back: for a save at
    a time other than 0, a read of the same window returns exactly the
    saved list and timestamp as long as no checkpoint has passed since the
    save - in particular a read at the very time of the save - and the read
    changes nothing. A save at time 0 is never read back. *)
Theorem loadCache_saveCache (tza now ts : Z) (frame : TimeFrame) (d : list Repo)
    (st : AppState) :
  (ts <> 0 -> getLatestCheckpoint tza now <= ts ->
     loadCache tza now frame (saveCache ts frame d st)
     = (Some (mkCacheEntry d ts), saveCache ts frame d st)) /\
  (ts <> 0 ->
     loadCache tza ts frame (saveCache ts frame d st)
     = (Some (mkCacheEntry d ts), saveCache ts frame d st)) /\
  (ts = 0 -> (loadCache tza now frame (saveCache ts frame d st)).1 = None).
Proof.
  assert (Hgen : forall n, ts <> 0 -> getLatestCheckpoint tza n <= ts ->
            loadCache tza n frame (saveCache ts frame d st)
            = (Some (mkCacheEntry d ts), saveCache ts frame d st)).
  { intros n Hnz Hfresh. unfold loadCache. rewrite saveCache_cell. simpl.
    destruct (Z.eqb_spec ts 0); [contradiction|]. simpl.
    destruct (Z.ltb_spec ts (getLatestCheckpoint tza n)); [lia | reflexivity]. }
  split; [apply Hgen|]. split.
  - intros Hnz. apply Hgen; [assumption|].
    pose proof (getLatestCheckpoint_lag tza ts). lia.
  - intros ->. unfold loadCache. rewrite saveCache_cell. reflexivity.
Qed.

Lemma loadCache_saveCache_witness :
  (loadCache 0 1700000000000 TF_7d
     (saveCache 1700000000000 TF_7d [sample_repo "a/b" "x"]
        (initial_state (mkStorage ∅ None)))).1
  = Some (mkCacheEntry [sample_repo "a/b" "x"] 1700000000000).
Proof.
  destruct (loadCache_saveCache 0 1700000000000 1700000000000 TF_7d
              [sample_repo "a/b" "x"] (initial_state (mkStorage ∅ None)))
    as (_ & Hnow & _).
  rewrite Hnow; [reflexivity | discriminate].
Defined.

(** X5: the cache cells are independent: saving the result of one
    window leaves what [loadCache] returns for any other window, and the
    stored favorites, as they were. *)
Theorem saveCache_other_window (tza now ts : Z) (frame other : TimeFrame)
    (d : list Repo) (st : AppState) :
  other <> frame ->
  (loadCache tza now other (saveCache ts frame d st)).1
  = (loadCache tza now other st).1 /\
  vault (localStorage (saveCache ts frame d st)) = vault (localStorage st).
Proof.
  intros Hne.
  assert (Hcell : cache (localStorage (saveCache ts frame d st)) !! other
                  = cache (localStorage st) !! other).
  { unfold saveCache. simpl.
    destruct (decide (activeTabRef st = frame)); simpl;
      apply lookup_insert_ne; congruence. }
  split.
  - unfold loadCache. rewrite Hcell.
    destruct (cache (localStorage st) !! other) as [[text | d' t]|]; [| |reflexivity].
    + destruct (text =? "")%string; reflexivity.
    + destruct d' as [d'|], t as [t|]; simpl; try reflexivity.
      destruct (t =? 0); simpl; [reflexivity|].
      destruct (t <? getLatestCheckpoint tza now); reflexivity.
  - unfold saveCache. simpl. destruct (decide (activeTabRef st = frame)); reflexivity.
Qed.

Lemma saveCache_other_window_witness :
  (loadCache 0 100 TF_3d
     (saveCache 100 TF_7d [sample_repo "a/b" "x"] (initial_state (mkStorage ∅ None)))).1
  = None.
Proof.
  destruct (saveCache_other_window 0 100 100 TF_7d TF_3d [sample_repo "a/b" "x"]
              (initial_state (mkStorage ∅ None))) as [H _]; [discriminate|].
  rewrite H. reflexivity.
Defined.

(** ** Scan orchestrator: effects of the three parts of [handleScan] *)

Lemma log_extends_refl st : log_extends st st.
Proof. exists []. symmetry. apply app_nil_r. Qed.

Lemma log_extends_trans st1 st2 st3 :
  log_extends st1 st2 -> log_extends st2 st3 -> log_extends st1 st3.
Proof.
  intros [m1 H1] [m2 H2]. exists (m1 ++ m2). rewrite H2, H1, app_assoc. reflexivity.
Qed.

Lemma log_extends_addLog msg st : log_extends st (addLog msg st).
Proof. exists [msg]. reflexivity. Qed.

Ltac log_unchanged := exists []; simpl; symmetry; apply app_nil_r.

Lemma loadCache_log_extends tza now frame st :
  log_extends st (loadCache tza now frame st).2.
Proof.
  unfold loadCache.
  destruct (cache (localStorage st) !! frame) as [[text | d t]|]; simpl;
    [| |log_unchanged].
  - destruct (text =? "")%string; log_unchanged.
  - destruct d as [d|], t as [t|]; simpl; try log_unchanged.
    destruct (t =? 0); simpl; [log_unchanged|].
    destruct (t <? getLatestCheckpoint tza now);
      [apply log_extends_addLog | log_unchanged].
Qed.

(** What a call of [handleScan] does up to its [await]. *)
Lemma handleScan_effects tza now start frame forceRefresh st :
  let called := handleScan tza now start frame forceRefresh st in
  activeTab called.1 = frame /\ activeTabRef called.1 = frame /\
  favorites called.1 = favorites st /\
  localStorage called.1 = localStorage st /\
  log_extends st called.1 /\
  (called.2 = None -> status called.1 = COMPLETE /\ forceRefresh = false) /\
  (forall q, called.2 = Some q ->
     q = mkPending frame forceRefresh start /\
     status called.1 = SCANNING /\ repos called.1 = Some []).
Proof.
  cbv zeta. unfold handleScan.
  set (st0 := set_activeTabRef frame (setActiveTab frame st)).
  pose proof (loadCache_frame_state tza now frame st0) as (Htab & Href & _ & Hfav & _ & _).
  pose proof (localStorage_loadCache tza now frame st0) as Hsto.
  pose proof (loadCache_log_extends tza now frame st0) as Hlog.
  assert (Hlog0 : forall st', log_extends st0 st' -> log_extends st st')
    by (intros st' [m Hm]; exists m; exact Hm).
  destruct forceRefresh; simpl.
  - do 4 (split; [reflexivity|]).
    split; [apply Hlog0; exists [LogForceRefresh]; reflexivity|].
    split; [discriminate|].
    intros q [= <-]. repeat split.
  - destruct (loadCache tza now frame st0) as [[cached|] st1]; simpl in *.
    + split; [exact Htab|]. split; [exact Href|].
      split; [exact Hfav|]. split; [exact Hsto|].
      split; [apply Hlog0; eapply log_extends_trans; [exact Hlog|];
              exists [LogCacheLoaded frame]; reflexivity|].
      split; [intros _; split; reflexivity | discriminate].
    + split; [exact Htab|]. split; [exact Href|].
      split; [exact Hfav|]. split; [exact Hsto|].
      split; [apply Hlog0; eapply log_extends_trans; [exact Hlog|];
              exists [LogScanStart frame]; reflexivity|].
      split; [discriminate|].
      intros q [= <-]. repeat split.
Qed.

Lemma handleScan_fulfilled_effects p results td ts st :
  let st' := handleScan_fulfilled p results td ts st in
  activeTab st' = activeTab st /\ activeTabRef st' = activeTabRef st /\
  favorites st' = favorites st /\
  vault (localStorage st') = vault (localStorage st) /\
  log_extends st st' /\
  (forall f, f <> scan_frame p \/ activeTabRef st <> scan_frame p ->
     cache (localStorage st') !! f = cache (localStorage st) !! f) /\
  (activeTabRef st = scan_frame p -> status st' = COMPLETE).
Proof.
  cbv zeta. unfold handleScan_fulfilled.
  destruct (decide (activeTabRef st <> scan_frame p)) as [Hne|Heq].
  - repeat split; try reflexivity; [log_unchanged | contradiction].
  - unfold saveCache. simpl.
    destruct (decide (activeTabRef st = scan_frame p)); simpl;
      repeat split; try reflexivity;
      try (exists [LogScanDone (td - scan_start p) (length results)]; reflexivity);
      try (intros f [Hf | Hf]; [apply lookup_insert_ne; congruence | contradiction]).
Qed.

Lemma handleScan_rejected_effects p error st :
  let st' := state_of (handleScan_rejected p error st) in
  activeTab st' = activeTab st /\ activeTabRef st' = activeTabRef st /\
  favorites st' = favorites st /\
  localStorage st' = localStorage st /\
  log_extends st st' /\
  (activeTabRef st = scan_frame p -> status st' = ERROR).
Proof.
  cbv zeta. unfold handleScan_rejected.
  destruct (decide (activeTabRef st <> scan_frame p)) as [Hne|Heq].
  - repeat split; try reflexivity; [apply log_extends_refl | contradiction].
  - destruct (message error =? "")%string; simpl;
      destruct (cache (localStorage st) !! scan_frame p) as [[text | d t]|]; simpl;
      try destruct (text =? "")%string; simpl;
      repeat split; try reflexivity; try (intros _; reflexivity);
      solve [ exists [LogFatalUnknown]; reflexivity
            | exists [LogFatal (message error)]; reflexivity
            | exists [LogFatalUnknown; LogStaleRestored];
              simpl; rewrite <- app_assoc; reflexivity
            | exists [LogFatal (message error); LogStaleRestored];
              simpl; rewrite <- app_assoc; reflexivity ].
Qed.

Lemma App_mount_effects tza now start s :
  let called := App_mount tza now start (initial_state s) in
  activeTab called.1 = TF_3d /\ activeTabRef called.1 = TF_3d /\
  cache (localStorage called.1) = cache s /\
  (called.2 = None -> status called.1 = COMPLETE) /\
  (forall q, called.2 = Some q ->
     q = mkPending TF_3d false start /\ status called.1 = SCANNING).
Proof.
  cbv zeta. unfold App_mount.
  match goal with
  | |- context [handleScan tza now start TF_3d false ?x] =>
      remember x as st0 eqn:E
  end.
  assert (Hc : cache (localStorage st0) = cache s).
  { subst st0. simpl. destruct (vault s) as [[text | parsed]|]; simpl; try reflexivity.
    - destruct (text =? "")%string; reflexivity.
    - destruct parsed as [|[n|r] rest]; reflexivity. }
  clear E.
  pose proof (handleScan_effects tza now start TF_3d false st0)
    as (Htab & Href & _ & Hsto & _ & Hnone & Hsome).
  cbv zeta in *.
  destruct (handleScan tza now start TF_3d false st0) as [st1 q]. simpl in *.
  split; [exact Htab|]. split; [exact Href|].
  split; [rewrite Hsto; exact Hc|].
  split; [intros Hq; apply (Hnone Hq)|].
  intros q0 Hq. destruct (Hsome q0 Hq) as (H1 & H2 & _). auto.
Qed.

Lemma loadCache_fresh tza now frame st d t :
  cache (localStorage st) !! frame = Some (CacheJson (Some d) (Some t)) ->
  t <> 0 -> getLatestCheckpoint tza now <= t ->
  loadCache tza now frame st = (Some (mkCacheEntry d t), st).
Proof.
  intros Hcell Hnz Hfresh. unfold loadCache. rewrite Hcell. simpl.
  destruct (Z.eqb_spec t 0); [contradiction|]. simpl.
  destruct (Z.ltb_spec t (getLatestCheckpoint tza now)); [lia | reflexivity].
Qed.

(** X6: after a scan of the active window has completed, asking for
    that window again without forcing, before the next checkpoint, starts
    no fetch: the list just obtained is shown again from the cache, with
    the time of the save as "last updated", and storage is not written. *)
Theorem rescan_after_success_hits_cache (tza now start td ts : Z) (p : Pending)
    (results : list Repo) (st : AppState) :
  activeTabRef st = scan_frame p ->
  ts <> 0 -> getLatestCheckpoint tza now <= ts ->
  let st1 := handleScan_fulfilled p results td ts st in
  let called := handleScan tza now start (scan_frame p) false st1 in
  called.2 = None /\ repos called.1 = Some results /\
  lastUpdated called.1 = Some ts /\ status called.1 = COMPLETE /\
  localStorage called.1 = localStorage st1.
Proof.
  intros Href Hnz Hfresh. cbv zeta.
  set (st1 := handleScan_fulfilled p results td ts st).
  assert (Hcell : cache (localStorage st1) !! scan_frame p
                  = Some (CacheJson (Some results) (Some ts))).
  { unfold st1. rewrite handleScan_fulfilled_active by assumption.
    simpl. apply saveCache_cell. }
  unfold handleScan. simpl.
  rewrite (loadCache_fresh tza now (scan_frame p) _ results ts); try assumption.
  repeat split.
Qed.

Lemma rescan_after_success_hits_cache_witness :
  (handleScan 0 1700000000500 1700000000501 TF_3d false
     (handleScan_fulfilled (mkPending TF_3d false 1700000000000)
        [sample_repo "a/b" "x"] 1700000000100 1700000000101
        (initial_state (mkStorage ∅ None)))).2 = None.
Proof.
  apply (rescan_after_success_hits_cache 0 1700000000500 1700000000501
           1700000000100 1700000000101 (mkPending TF_3d false 1700000000000)
           [sample_repo "a/b" "x"] (initial_state (mkStorage ∅ None))).
  - reflexivity.
  - discriminate.
  - vm_compute. discriminate.
Defined.

(** X7: an expired entry is not served by a scan request, which starts a
    fetch with an empty display; but if that fetch fails while the window
    is still active, the expired entry is what ends up on display, with
    its old timestamp, under the status [ERROR]. *)
Theorem failed_scan_shows_expired_entry (tza now start : Z) (frame : TimeFrame)
    (st : AppState) (d : list Repo) (t : Z) (error : JsError) :
  cache (localStorage st) !! frame = Some (CacheJson (Some d) (Some t)) ->
  t < getLatestCheckpoint tza now ->
  let called := handleScan tza now start frame false st in
  called.2 = Some (mkPending frame false start) /\
  repos called.1 = Some [] /\
  exists st', handleScan_rejected (mkPending frame false start) error called.1
              = Returned st' /\
    status st' = ERROR /\ repos st' = Some d /\ lastUpdated st' = Some t.
Proof.
  intros Hcell Hold. cbv zeta.
  pose proof (handleScan_effects tza now start frame false st)
    as (_ & Href & _ & Hsto & _ & Hnone & Hsome).
  cbv zeta in *.
  assert (Hmiss : (loadCache tza now frame (set_activeTabRef frame (setActiveTab frame st))).1
                  = None).
  { apply (loadCache_expired tza now frame _ (Some d) t);
      [exact Hcell | assumption]. }
  assert (Hq : (handleScan tza now start frame false st).2
               = Some (mkPending frame false start)).
  { unfold handleScan. simpl.
    destruct (loadCache tza now frame (set_activeTabRef frame (setActiveTab frame st)))
      as [[c|] st1]; [discriminate Hmiss | reflexivity]. }
  destruct (Hsome _ Hq) as (_ & _ & Hrepos).
  split; [exact Hq|]. split; [exact Hrepos|].
  apply handleScan_rejected_restores_stale.
  - exact Href.
  - simpl. rewrite Hsto. exact Hcell.
Qed.

Lemma failed_scan_shows_expired_entry_witness :
  let st := initial_state
              (mkStorage {[ TF_3d := CacheJson (Some [sample_repo "a/b" "old"]) (Some 5) ]} None) in
  exists st', handleScan_rejected (mkPending TF_3d false 1700000000001)
                (mkJsError "network down")
                (handleScan 0 1700000000000 1700000000001 TF_3d false st).1
              = Returned st' /\
    status st' = ERROR /\ repos st' = Some [sample_repo "a/b" "old"] /\
    lastUpdated st' = Some 5.
Proof.
  cbv zeta.
  destruct (failed_scan_shows_expired_entry 0 1700000000000 1700000000001 TF_3d
              (initial_state
                 (mkStorage {[ TF_3d := CacheJson (Some [sample_repo "a/b" "old"]) (Some 5) ]}
                    None))
              [sample_repo "a/b" "old"] 5 (mkJsError "network down"))
    as (_ & _ & H).
  - reflexivity.
  - vm_compute. reflexivity.
  - exact H.
Defined.

(** ** Invariants of the running application *)

Lemma run_invariant (tza : Z) (P : System -> Prop) :
  (forall e sys, P sys -> P (step tza e sys)) ->
  forall es sys, P sys -> P (run tza es sys).
Proof.
  intros Hstep es. unfold run.
  induction es as [|e es IH]; intros sys HP; simpl; [assumption|].
  apply IH, Hstep, HP.
Qed.

Lemma launch_app sys called : app (launch sys called) = called.1.
Proof. destruct called as [st [q|]]; reflexivity. Qed.

Lemma launch_inflight sys called :
  inflight (launch sys called)
  = inflight sys ++ match called.2 with Some q => [q] | None => [] end.
Proof. destruct called as [st [q|]]; simpl; [reflexivity | rewrite app_nil_r; reflexivity]. Qed.

(** What one step does to the parts of the state that scans share. *)
Lemma step_effects tza e sys :
  let sys' := step tza e sys in
  favorites (app sys') = favorites (app sys) /\
  vault (localStorage (app sys')) = vault (localStorage (app sys)) /\
  log_extends (app sys) (app sys') /\
  (activeTab (app sys) = activeTabRef (app sys) ->
   activeTab (app sys') = activeTabRef (app sys')).
Proof.
  cbv zeta.
  destruct e as [tab now start | now start | i results td ts | i error];
    unfold step.
  - rewrite launch_app.
    pose proof (handleScan_effects tza now start tab false (app sys))
      as (Htab & Href & Hfav & Hsto & Hlog & _).
    cbv zeta in *. rewrite Hsto, Htab, Href. auto.
  - pose proof (handleScan_effects tza now start (activeTab (app sys)) true (app sys))
      as (Htab & Href & Hfav & Hsto & Hlog & _).
    cbv zeta in *.
    destruct (status (app sys)); rewrite ?launch_app, ?Hsto;
      (split; [auto|]); (split; [auto|]);
      (split; [first [assumption | log_unchanged]|]);
      intros H; congruence.
  - destruct (inflight sys !! i) as [p|]; simpl.
    + pose proof (handleScan_fulfilled_effects p results td ts (app sys))
        as (Htab & Href & Hfav & Hvault & Hlog & _).
      cbv zeta in *. rewrite Htab, Href. auto.
    + repeat split; auto. log_unchanged.
  - destruct (inflight sys !! i) as [p|]; simpl.
    + pose proof (handleScan_rejected_effects p error (app sys))
        as (Htab & Href & Hfav & Hsto & Hlog & _).
      cbv zeta in *. rewrite Htab, Href, Hsto. auto.
    + repeat split; auto. log_unchanged.
Qed.

(** X8: whatever the user clicks and however the fetches settle, the
    highlighted tab and the active-window pointer that guards stale
    responses name the same window; so a completed scan changes the
    displayed list only when its window is the highlighted tab. *)
Theorem activeTab_matches_activeTabRef (tza now start : Z) (s : Storage)
    (es : list Event) :
  let sys := run tza es (boot tza now start s) in
  activeTab (app sys) = activeTabRef (app sys) /\
  (forall i p results td ts,
     inflight sys !! i = Some p ->
     repos (app (step tza (Fulfilled i results td ts) sys)) <> repos (app sys) ->
     scan_frame p = activeTab (app sys)).
Proof.
  cbv zeta.
  assert (Hinv : activeTab (app (run tza es (boot tza now start s)))
                 = activeTabRef (app (run tza es (boot tza now start s)))).
  { apply run_invariant.
    - intros e sys H. apply (step_effects tza e sys). exact H.
    - unfold boot. rewrite launch_app.
      pose proof (App_mount_effects tza now start s) as (Htab & Href & _).
      cbv zeta in *. congruence. }
  split; [exact Hinv|].
  intros i p results td ts Hp Hchg. rewrite Hinv.
  destruct (decide (activeTabRef (app (run tza es (boot tza now start s))) = scan_frame p))
    as [Heq|Hne]; [congruence|].
  exfalso. apply Hchg. simpl. rewrite Hp. simpl.
  rewrite handleScan_fulfilled_stale by assumption. reflexivity.
Qed.

Lemma activeTab_matches_activeTabRef_witness :
  let sys := run 0 [ClickTab TF_7d 1 2] (boot 0 0 0 (mkStorage ∅ None)) in
  scan_frame (mkPending TF_7d false 2) = activeTab (app sys).
Proof.
  cbv zeta.
  destruct (activeTab_matches_activeTabRef 0 0 0 (mkStorage ∅ None) [ClickTab TF_7d 1 2])
    as [_ H].
  apply (H 1%nat (mkPending TF_7d false 2) [sample_repo "a/b" "x"] 3 4).
  - reflexivity.
  - vm_compute. discriminate.
Defined.

(** X9: scanning never touches the favorites: no click on a tab or on
    refresh and no completion of a scan changes the favorites on display
    or the stored favorites. *)
Theorem scans_leave_favorites_alone (tza : Z) (es : list Event) (sys : System) :
  favorites (app (run tza es sys)) = favorites (app sys) /\
  vault (localStorage (app (run tza es sys))) = vault (localStorage (app sys)).
Proof.
  apply (run_invariant tza
           (fun sys' => favorites (app sys') = favorites (app sys) /\
                        vault (localStorage (app sys')) = vault (localStorage (app sys)))).
  - intros e sys' [H1 H2].
    destruct (step_effects tza e sys') as (Hf & Hv & _).
    split; congruence.
  - split; reflexivity.
Qed.

(** X10: the log panel is append-only: every line ever logged is still
    there, in place, after any further clicks and completions. *)
Theorem logs_are_append_only (tza : Z) (es : list Event) (sys : System) :
  exists more, logs (app (run tza es sys)) = logs (app sys) ++ more.
Proof.
  apply (run_invariant tza (fun sys' => log_extends (app sys) (app sys'))).
  - intros e sys' H.
    destruct (step_effects tza e sys') as (_ & _ & Hlog & _).
    eapply log_extends_trans; eassumption.
  - apply log_extends_refl.
Qed.






Lemma elem_of_delete_other {A} (l : list A) (i : nat) (x y : A) :
  x ∈ l -> l !! i = Some y -> x <> y -> x ∈ delete i l.
Proof.
  intros Hx Hy Hne.
  apply list_elem_of_lookup in Hx as [j Hj].
  assert (Hij : j <> i) by (intros ->; congruence).
  apply list_elem_of_lookup.
  destruct (Nat.lt_ge_cases j i) as [Hlt|Hge].
  - exists j. rewrite list_lookup_delete_lt by assumption. exact Hj.
  - exists (pred j). rewrite list_lookup_delete_ge by lia.
    replace (S (pred j)) with j by lia. exact Hj.
Qed.

(** X12: the status is never [SCANNING] with nothing to wait for:
    whenever the status is [SCANNING], a scan of the active window is in
    flight. *)
Theorem scanning_has_scan_in_flight (tza now start : Z) (s : Storage)
    (es : list Event) :
  let sys := run tza es (boot tza now start s) in
  status (app sys) = SCANNING ->
  exists p, p ∈ inflight sys /\ scan_frame p = activeTabRef (app sys).
Proof.
  cbv zeta.
  apply (run_invariant tza
           (fun sys => status (app sys) = SCANNING ->
                       exists p, p ∈ inflight sys /\ scan_frame p = activeTabRef (app sys))).
  - intros e sys Hinv.
    assert (Hlaunch : forall frame force n st',
              status (app (launch sys (handleScan tza n st' frame force (app sys)))) = SCANNING ->
              exists p, p ∈ inflight (launch sys (handleScan tza n st' frame force (app sys)))
                        /\ scan_frame p
                           = activeTabRef (app (launch sys (handleScan tza n st' frame force (app sys))))).
    { intros frame force n st'.
      pose proof (handleScan_effects tza n st' frame force (app sys))
        as (_ & Href & _ & _ & _ & Hnone & Hsome).
      cbv zeta in *. rewrite launch_app, launch_inflight, Href.
      destruct (handleScan tza n st' frame force (app sys)) as [st1 [q|]]; simpl in *.
      - intros _. destruct (Hsome q eq_refl) as (-> & _).
        exists (mkPending frame force st'). split; [|reflexivity].
        apply elem_of_app. right. apply list_elem_of_singleton. reflexivity.
      - intros Hs. destruct (Hnone eq_refl) as [Hc _]. congruence. }
    destruct e as [tab n st' | n st' | i results td ts | i error]; unfold step.
    + apply Hlaunch.
    + destruct (status (app sys)) eqn:Hst; try apply Hlaunch.
      intros _. apply Hinv. reflexivity.
    + destruct (inflight sys !! i) as [p|] eqn:Hp; [|exact Hinv]. simpl.
      pose proof (handleScan_fulfilled_effects p results td ts (app sys))
        as (_ & Href & _ & _ & _ & _ & Hdone).
      cbv zeta in *. rewrite Href.
      destruct (decide (activeTabRef (app sys) = scan_frame p)) as [Heq|Hne].
      * intros Hs. rewrite (Hdone Heq) in Hs. discriminate.
      * rewrite handleScan_fulfilled_stale by assumption. simpl.
        intros Hs. destruct (Hinv Hs) as (q & Hq & Hframe).
        exists q. split; [|exact Hframe].
        eapply elem_of_delete_other; [exact Hq | exact Hp | congruence].
    + destruct (inflight sys !! i) as [p|] eqn:Hp; [|exact Hinv]. simpl.
      pose proof (handleScan_rejected_effects p error (app sys))
        as (_ & Href & _ & _ & _ & Hdone).
      cbv zeta in *. rewrite Href.
      destruct (decide (activeTabRef (app sys) = scan_frame p)) as [Heq|Hne].
      * intros Hs. rewrite (Hdone Heq) in Hs. discriminate.
      * rewrite handleScan_rejected_stale by assumption. simpl.
        intros Hs. destruct (Hinv Hs) as (q & Hq & Hframe).
        exists q. split; [|exact Hframe].
        eapply elem_of_delete_other; [exact Hq | exact Hp | congruence].
  - unfold boot. rewrite launch_app, launch_inflight.
    pose proof (App_mount_effects tza now start s) as (_ & Href & _ & Hnone & Hsome).
    cbv zeta in *. rewrite Href.
    destruct (App_mount tza now start (initial_state s)) as [st1 [q|]]; simpl in *.
    + intros _. destruct (Hsome q eq_refl) as (-> & _).
      exists (mkPending TF_3d false start). split; [|reflexivity].
      apply list_elem_of_singleton. reflexivity.
    + intros Hs. rewrite (Hnone eq_refl) in Hs. discriminate.
Qed.

Lemma scanning_has_scan_in_flight_witness :
  let sys := run 0 [ClickTab TF_7d 1 2] (boot 0 0 0 (mkStorage ∅ None)) in
  exists p, p ∈ inflight sys /\ scan_frame p = activeTabRef (app sys).
Proof.
  apply (scanning_has_scan_in_flight 0 0 0 (mkStorage ∅ None) [ClickTab TF_7d 1 2]).
  reflexivity.
Defined.

(** X13: a cache cell changes only when a scan of that very window
    completes successfully while the window is active; clicks, failures and
    the completions of scans of other windows leave it as it is. *)
Theorem cache_cell_written_only_by_its_scan (tza : Z) (e : Event) (sys : System)
    (f : TimeFrame) :
  cache (localStorage (app (step tza e sys))) !! f
  <> cache (localStorage (app sys)) !! f ->
  exists i p results td ts,
    e = Fulfilled i results td ts /\ inflight sys !! i = Some p /\
    scan_frame p = f /\ activeTabRef (app sys) = f /\
    cache (localStorage (app (step tza e sys))) !! f
    = Some (CacheJson (Some results) (Some ts)).
Proof.
  destruct e as [tab now start | now start | i results td ts | i error];
    unfold step.
  - rewrite launch_app.
    pose proof (handleScan_effects tza now start tab false (app sys))
      as (_ & _ & _ & Hsto & _).
    cbv zeta in *. rewrite Hsto. intros H. contradiction.
  - pose proof (handleScan_effects tza now start (activeTab (app sys)) true (app sys))
      as (_ & _ & _ & Hsto & _).
    cbv zeta in *.
    destruct (status (app sys)); rewrite ?launch_app, ?Hsto; intros H; contradiction.
  - destruct (inflight sys !! i) as [p|] eqn:Hp; simpl; [|intros H; contradiction].
    pose proof (handleScan_fulfilled_effects p results td ts (app sys))
      as (_ & _ & _ & _ & _ & Hother & _).
    cbv zeta in *. intros Hchg.
    destruct (decide (f = scan_frame p)) as [->|Hf];
      [|exfalso; apply Hchg, Hother; left; exact Hf].
    destruct (decide (activeTabRef (app sys) = scan_frame p)) as [Heq|Hne];
      [|exfalso; apply Hchg, Hother; right; exact Hne].
    exists i, p, results, td, ts. repeat split; try assumption; try reflexivity.
    rewrite handleScan_fulfilled_active by assumption. simpl. apply saveCache_cell.
  - destruct (inflight sys !! i) as [p|]; simpl; [|intros H; contradiction].
    pose proof (handleScan_rejected_effects p error (app sys))
      as (_ & _ & _ & Hsto & _).
    cbv zeta in *. rewrite Hsto. intros H. contradiction.
Qed.

Lemma cache_cell_written_only_by_its_scan_witness :
  let sys := run 0 [ClickTab TF_7d 1 2] (boot 0 0 0 (mkStorage ∅ None)) in
  exists i p results td ts,
    Fulfilled 1 [sample_repo "a/b" "x"] 3 4 = Fulfilled i results td ts /\
    inflight sys !! i = Some p /\ scan_frame p = TF_7d /\
    activeTabRef (app sys) = TF_7d /\
    cache (localStorage (app (step 0 (Fulfilled 1 [sample_repo "a/b" "x"] 3 4) sys))) !! TF_7d
    = Some (CacheJson (Some results) (Some ts)).
Proof.
  apply (cache_cell_written_only_by_its_scan 0 (Fulfilled 1 [sample_repo "a/b" "x"] 3 4)
           (run 0 [ClickTab TF_7d 1 2] (boot 0 0 0 (mkStorage ∅ None))) TF_7d).
  vm_compute. discriminate.
Defined.

(** ** Favorites vault, continued *)

Lemma NoDup_names_filter repo (l : list FavItem) :
  List.NoDup (item_names l) ->
  List.NoDup (item_names (List.filter (other_name repo) l)).
Proof.
  induction l as [|f l IH]; [simpl; auto|].
  rewrite item_names_cons. cbn [List.filter].
  destruct (other_name repo f) eqn:Hk.
  - rewrite item_names_cons. destruct (item_name f) as [n|]; [|exact IH].
    intros Hnd. apply NoDup_cons_iff in Hnd as [Hfresh Hnd].
    apply NoDup_cons_iff. split; [|apply IH; exact Hnd].
    intros Hin. apply names_of_filter in Hin. tauto.
  - destruct (item_name f) as [n|]; [|exact IH].
    intros Hnd. apply NoDup_cons_iff in Hnd as [_ Hnd]. apply IH. exact Hnd.
Qed.

(** X14: a toggle flips the membership of the toggled name and of no
    other name, and it keeps the names of the favorites unique. *)
Theorem toggleFavorite_flips_membership (st : AppState) (repo : Repo) :
  let st' := toggleFavorite repo st in
  (In (name repo) (favorite_names st') <-> ~ In (name repo) (favorite_names st)) /\
  (forall n, n <> name repo ->
     (In n (favorite_names st') <-> In n (favorite_names st))) /\
  (List.NoDup (favorite_names st) -> List.NoDup (favorite_names st')).
Proof.
  cbv zeta. unfold favorite_names. rewrite toggleFavorite_favorites.
  destruct (existsb (same_name repo) (favorites st)) eqn:Hex.
  - assert (Hin : In (name repo) (item_names (favorites st)))
      by (apply existsb_same_name_In; exact Hex).
    split; [|split].
    + rewrite names_of_filter. tauto.
    + intros n Hn. rewrite names_of_filter. tauto.
    + apply NoDup_names_filter.
  - assert (Hnot : ~ In (name repo) (item_names (favorites st))).
    { intros Hin. apply existsb_same_name_In in Hin. congruence. }
    rewrite item_names_app. simpl.
    split; [|split].
    + rewrite in_app_iff. simpl. tauto.
    + intros n Hn. rewrite in_app_iff. simpl.
      split; [intros [H | [H | []]]; [exact H | congruence] | auto].
    + intros Hnd. apply NoDup_ListNoDup. apply NoDup_ListNoDup in Hnd.
      apply NoDup_app. split; [exact Hnd|].
      split; [|apply NoDup_singleton].
      intros n Hn. rewrite list_elem_of_singleton. intros ->.
      apply Hnot. apply list_elem_of_In. exact Hn.
Qed.

Lemma toggleFavorite_flips_membership_witness :
  List.NoDup (favorite_names
                (toggleFavorite (sample_repo "a/b" "x") (initial_state (mkStorage ∅ None)))).
Proof.
  apply (toggleFavorite_flips_membership (initial_state (mkStorage ∅ None))
           (sample_repo "a/b" "x")).
  constructor.
Defined.

Lemma App_mount_favorites tza now start st0 :
  let st1 := (handleScan tza now start TF_3d false st0).1 in
  favorites st1 = favorites st0 /\ localStorage st1 = localStorage st0.
Proof.
  cbv zeta.
  pose proof (handleScan_effects tza now start TF_3d false st0)
    as (_ & _ & Hfav & Hsto & _).
  cbv zeta in *. auto.
Qed.

(** X15: favorites survive a restart: when the favorites hold records
    only, the storage left by a toggle makes the next mount of the
    application load exactly the favorites that the toggle produced, and
    the mount leaves the stored favorites in place. *)
Theorem App_mount_restores_favorites (tza now start : Z) (st : AppState) (repo : Repo) :
  Forall (fun f => exists r, f = FavRecord r) (favorites st) ->
  let st' := toggleFavorite repo st in
  let mounted := (App_mount tza now start (initial_state (localStorage st'))).1 in
  favorites mounted = favorites st' /\
  vault (localStorage mounted) = vault (localStorage st').
Proof.
  intros Hrec. cbv zeta.
  assert (Hrec' : Forall (fun f => exists r, f = FavRecord r)
                    (favorites (toggleFavorite repo st))).
  { rewrite toggleFavorite_favorites.
    destruct (existsb (same_name repo) (favorites st)).
    - apply Forall_forall. intros f Hf. apply list_elem_of_In, filter_In in Hf as [Hf _].
      rewrite Forall_forall in Hrec. apply Hrec, list_elem_of_In, Hf.
    - apply Forall_app. split; [exact Hrec|]. constructor; [eauto | constructor]. }
  pose proof (toggleFavorite_persists repo st) as Hv.
  remember (toggleFavorite repo st) as st' eqn:Est. clear Est.
  unfold App_mount.
  match goal with
  | |- context [handleScan tza now start TF_3d false ?x] =>
      destruct (App_mount_favorites tza now start x) as [Hfav Hsto]
  end.
  rewrite Hfav, Hsto. clear Hfav Hsto.
  cbn [localStorage addLog initial_state]. rewrite Hv.
  destruct (favorites st') as [|f l] eqn:E;
    [split; simpl; rewrite ?Hv; reflexivity|].
  apply Forall_cons in Hrec' as [[r ->] _].
  split; simpl; rewrite ?Hv; reflexivity.
Qed.

Lemma App_mount_restores_favorites_witness :
  favorites (App_mount 0 0 0
               (initial_state
                  (localStorage (toggleFavorite (sample_repo "a/b" "x")
                                   (initial_state (mkStorage ∅ None)))))).1
  = [FavRecord (sample_repo "a/b" "x")].
Proof.
  destruct (App_mount_restores_favorites 0 0 0 (initial_state (mkStorage ∅ None))
              (sample_repo "a/b" "x")) as [H _].
  - constructor.
  - rewrite H. reflexivity.
Defined.

(** X16: the old format is recognised by the first element alone: a
    stored array that starts with a bare name is discarded whole, records
    after it included; an array that starts with a record is loaded whole,
    bare names after it included, and stays in storage; a stored text that
    does not parse loads nothing and stays in storage. *)
Theorem App_mount_looks_at_first_favorite (tza now start : Z) (s : Storage) :
  let mounted := (App_mount tza now start (initial_state s)).1 in
  (forall n rest, vault s = Some (FavArray (FavName n :: rest)) ->
     favorites mounted = [] /\ vault (localStorage mounted) = None) /\
  (forall r rest, vault s = Some (FavArray (FavRecord r :: rest)) ->
     favorites mounted = FavRecord r :: rest /\
     vault (localStorage mounted) = vault s) /\
  (forall text, vault s = Some (FavCorrupt text) ->
     favorites mounted = [] /\ vault (localStorage mounted) = vault s).
Proof.
  cbv zeta. unfold App_mount.
  match goal with
  | |- context [handleScan tza now start TF_3d false ?x] =>
      destruct (App_mount_favorites tza now start x) as [Hfav Hsto]
  end.
  rewrite Hfav, Hsto. clear Hfav Hsto. simpl.
  split; [|split].
  - intros n rest Hv. rewrite Hv. split; reflexivity.
  - intros r rest Hv. rewrite Hv. split; simpl; rewrite ?Hv; reflexivity.
  - intros text Hv. rewrite Hv.
    destruct (text =? "")%string; split; simpl; rewrite ?Hv; reflexivity.
Qed.

Lemma App_mount_looks_at_first_favorite_witness :
  favorites (App_mount 0 0 0
               (initial_state
                  (mkStorage ∅ (Some (FavArray [FavName "a/b";
                                                FavRecord (sample_repo "c/d" "y")]))))).1
  = [].
Proof.
  destruct (App_mount_looks_at_first_favorite 0 0 0
              (mkStorage ∅ (Some (FavArray [FavName "a/b";
                                            FavRecord (sample_repo "c/d" "y")]))))
    as (Hlegacy & _).
  apply (Hlegacy "a/b"%string [FavRecord (sample_repo "c/d" "y")]). reflexivity.
Defined.

(** ** Candidate validation, continued *)

Lemma length_survivors github (cs : list Repo) :
  (length (survivors github cs) <= length cs)%nat.
Proof.
  induction cs as [|c cs IH]; [simpl; lia|].
  change (survivors github (c :: cs))
    with (match validate github c with
          | Some e => e :: survivors github cs
          | None => survivors github cs
          end).
  destruct (validate github c); simpl; lia.
Qed.

Lemma survivors_nil_iff github (cs : list Repo) :
  survivors github cs = [] <-> forall c, In c cs -> validate github c = None.
Proof.
  induction cs as [|c cs IH]; [simpl; tauto|].
  change (survivors github (c :: cs))
    with (match validate github c with
          | Some e => e :: survivors github cs
          | None => survivors github cs
          end).
  destruct (validate github c) as [e|] eqn:E.
  - split; [discriminate|]. intros H. specialize (H c (or_introl eq_refl)). congruence.
  - rewrite IH. split.
    + intros H c' [<- | Hin]; [exact E | apply H, Hin].
    + intros H c' Hin. apply H. right. exact Hin.
Qed.

(** X17: a successful validation yields between 1 and 10 entries, never
    more than there were candidates; it fails with "no valid targets"
    exactly when every candidate is dropped, in particular on an empty
    candidate list. *)
Theorem fetchTrendingRepos_result_size (github : string -> FetchResult)
    (cs : list Repo) :
  (forall l, fetchTrendingRepos github cs = Accepted l ->
     (1 <= length l <= 10)%nat /\ (length l <= length cs)%nat) /\
  (fetchTrendingRepos github cs = NoValidTargets <->
     forall c, In c cs -> validate github c = None) /\
  fetchTrendingRepos github [] = NoValidTargets.
Proof.
  rewrite fetchTrendingRepos_survivors.
  pose proof (length_survivors github cs) as Hlen.
  split; [|split; [|reflexivity]].
  - intros l Hacc.
    assert (Hl : l = take TARGET_COUNT (survivors github cs)
                 /\ (1 <= length (survivors github cs))%nat).
    { destruct (survivors github cs) as [|e es]; [discriminate|].
      injection Hacc as <-. split; [reflexivity | simpl; lia]. }
    destruct Hl as [-> Hpos]. rewrite length_take. unfold TARGET_COUNT. lia.
  - rewrite <- survivors_nil_iff.
    destruct (survivors github cs); split; congruence.
Qed.

Lemma fetchTrendingRepos_result_size_witness :
  (1 <= length (map sample_entry (sample_head ++ sample_tail)) <= 10)%nat.
Proof.
  destruct (fetchTrendingRepos_result_size sample_github (sample_head ++ sample_tail))
    as (Hsize & _).
  apply (Hsize (map sample_entry (sample_head ++ sample_tail))). reflexivity.
Defined.

Lemma validate_depends_on_one_answer github github' (c : Repo) :
  github' (cleanName (name c)) = github (cleanName (name c)) ->
  validate github' c = validate github c.
Proof.
  intros H. unfold validate.
  destruct (normalize c) as [clean|] eqn:E; [|reflexivity].
  apply normalize_Some in E as [-> _]. rewrite H. reflexivity.
Qed.

Lemma survivors_depend_on_answers github github' (cs : list Repo) :
  (forall c, In c cs -> github' (cleanName (name c)) = github (cleanName (name c))) ->
  survivors github' cs = survivors github cs.
Proof.
  induction cs as [|c cs IH]; intros H; [reflexivity|].
  change (survivors github' (c :: cs))
    with (match validate github' c with
          | Some e => e :: survivors github' cs
          | None => survivors github' cs
          end).
  change (survivors github (c :: cs))
    with (match validate github c with
          | Some e => e :: survivors github cs
          | None => survivors github cs
          end).
  rewrite (validate_depends_on_one_answer github github' c) by (apply H; left; reflexivity).
  rewrite IH by (intros c' Hc; apply H; right; exact Hc). reflexivity.
Qed.

(** X18: the loop stops at the target: once a prefix of the candidates
    has given ten entries, the result is the same whatever candidates
    follow and whatever the endpoint would answer for them. *)
Theorem fetchTrendingRepos_stops_at_target (github github' : string -> FetchResult)
    (pre post post' : list Repo) :
  (TARGET_COUNT <= length (survivors github pre))%nat ->
  (forall c, In c pre -> github' (cleanName (name c)) = github (cleanName (name c))) ->
  fetchTrendingRepos github' (pre ++ post') = fetchTrendingRepos github (pre ++ post) /\
  fetchTrendingRepos github (pre ++ post)
  = Accepted (take TARGET_COUNT (survivors github pre)).
Proof.
  intros Hfull Hagree.
  rewrite !fetchTrendingRepos_survivors, !survivors_app.
  rewrite (survivors_depend_on_answers github github' pre Hagree).
  rewrite !take_app_le by assumption.
  destruct (survivors github pre) as [|e es] eqn:E;
    [unfold TARGET_COUNT in Hfull; simpl in Hfull; lia|].
  split; reflexivity.
Qed.

Lemma fetchTrendingRepos_stops_at_target_witness :
  fetchTrendingRepos sample_github
    ((sample_head ++ sample_tail ++ [sample_repo "o/r9" "nine"]) ++ [sample_repo "o/late" "late"])
  = Accepted (take TARGET_COUNT
                (survivors sample_github
                   (sample_head ++ sample_tail ++ [sample_repo "o/r9" "nine"]))).
Proof.
  apply (fetchTrendingRepos_stops_at_target sample_github sample_github
           (sample_head ++ sample_tail ++ [sample_repo "o/r9" "nine"])
           [sample_repo "o/late" "late"] []).
  - vm_compute. lia.
  - reflexivity.
Defined.

(** X19: what the metadata lookup makes of each answer. The candidate is
    dropped exactly on a 404 or on another status outside 200-299 that is
    neither 403 nor 429. It is kept with only the rate-limit flag set
    exactly on a failed request, on 403 or 429, or on a success status
    whose body is not JSON. *)
Theorem fetchRepoDetails_outcomes (r : FetchResult) :
  (fetchRepoDetails r = None <->
     exists status body, r = HttpResponse status body /\
       (status = 404 \/
        (status <> 403 /\ status <> 429 /\ (status < 200 \/ 299 < status)))) /\
  (fetchRepoDetails r = Some rate_limited_details <->
     r = NetworkFailure \/
     exists status body, r = HttpResponse status body /\
       (status = 403 \/ status = 429 \/ (200 <= status <= 299 /\ body = None))).
Proof.
  destruct r as [|status body]; simpl.
  - split; split; auto; try discriminate.
    intros (s & b & Hr & _). discriminate.
  - unfold response_ok.
    assert (Hinv : forall (P : Z -> option GitHubData -> Prop),
              (exists s b, HttpResponse status body = HttpResponse s b /\ P s b) ->
              P status body).
    { intros P (s & b & [= <- <-] & HP). exact HP. }
    destruct (Z.eqb_spec status 404) as [->|H404]; simpl.
    { split; split; auto.
      - intros _. exists 404, body. auto.
      - discriminate.
      - intros [Hr | Hr]; [discriminate|].
        apply (Hinv (fun s b => s = 403 \/ s = 429 \/ (200 <= s <= 299 /\ b = None))) in Hr.
        lia. }
    destruct (Z.eqb_spec status 403) as [->|H403]; simpl.
    { split; split; auto; try discriminate.
      - intros Hr.
        apply (Hinv (fun s b => s = 404 \/ (s <> 403 /\ s <> 429 /\ (s < 200 \/ 299 < s)))) in Hr.
        lia.
      - intros _. right. exists 403, body. auto. }
    destruct (Z.eqb_spec status 429) as [->|H429]; simpl.
    { split; split; auto; try discriminate.
      - intros Hr.
        apply (Hinv (fun s b => s = 404 \/ (s <> 403 /\ s <> 429 /\ (s < 200 \/ 299 < s)))) in Hr.
        lia.
      - intros _. right. exists 429, body. auto. }
    destruct (Z.leb_spec 200 status) as [Hlo|Hlo], (Z.leb_spec status 299) as [Hhi|Hhi];
      simpl.
    + destruct body as [d|]; split; split; try discriminate; auto.
      * intros Hr.
        apply (Hinv (fun s b => s = 404 \/ (s <> 403 /\ s <> 429 /\ (s < 200 \/ 299 < s)))) in Hr.
        lia.
      * intros [Hr | Hr]; [discriminate|].
        apply (Hinv (fun s b => s = 403 \/ s = 429 \/ (200 <= s <= 299 /\ b = None))) in Hr.
        destruct Hr as [Hr | [Hr | [_ Hr]]]; [lia | lia | discriminate].
      * intros Hr.
        apply (Hinv (fun s b => s = 404 \/ (s <> 403 /\ s <> 429 /\ (s < 200 \/ 299 < s)))) in Hr.
        lia.
      * intros _. right. exists status, None.
        split; [reflexivity|]. right. right. split; [lia | reflexivity].
    + split; split; try discriminate; auto.
      * intros _. exists status, body. split; [reflexivity|]. right. lia.
      * intros [Hr | Hr]; [discriminate|].
        apply (Hinv (fun s b => s = 403 \/ s = 429 \/ (200 <= s <= 299 /\ b = None))) in Hr.
        lia.
    + split; split; try discriminate; auto.
      * intros _. exists status, body. split; [reflexivity|]. right. lia.
      * intros [Hr | Hr]; [discriminate|].
        apply (Hinv (fun s b => s = 403 \/ s = 429 \/ (200 <= s <= 299 /\ b = None))) in Hr.
        lia.
    + lia.
Qed.

Lemma fetchRepoDetails_outcomes_witness :
  fetchRepoDetails (HttpResponse 500 None) = None.
Proof.
  apply (fetchRepoDetails_outcomes (HttpResponse 500 None)).
  exists 500, None. split; [reflexivity|]. right. lia.
Defined.

(** X20: every accepted entry carries a definite rate-limit flag. An
    entry flagged rate limited keeps the candidate's own [isArchived] and
    is shown with the tier "secure" (unless the candidate itself came
    marked archived); an entry that is not flagged is never shown as
    "secure". *)
Theorem accepted_entry_tier (github : string -> FetchResult)
    (parse : string -> option Z) (c e : Repo) (now : Z) :
  validate github c = Some e ->
  (isRateLimited e = Some true \/ isRateLimited e = Some false) /\
  (isRateLimited e = Some true ->
     isArchived e = isArchived c /\
     (isArchived c <> Some true -> getStatusInfo parse e now = TierSecure)) /\
  (isRateLimited e = Some false -> getStatusInfo parse e now <> TierSecure).
Proof.
  unfold validate. destruct (normalize c) as [clean|]; [|discriminate].
  assert (Hfalse : forall b : option bool, b <> Some true -> truthy_bool b = false).
  { intros [[|]|] H; [contradiction | reflexivity | reflexivity]. }
  assert (Hflag : forall r : Repo, isRateLimited r = Some false ->
            getStatusInfo parse r now <> TierSecure).
  { intros r Hr. unfold getStatusInfo. rewrite Hr. simpl.
    destruct (truthy_bool (isArchived r)); [discriminate|].
    destruct (negb (truthy_string (lastPushedAt r))); [discriminate|].
    destruct (lastPushedAt r) as [s|]; [|discriminate].
    destruct (parse s) as [t|]; [|discriminate].
    unfold tier_of_days.
    repeat match goal with |- context [if ?b then _ else _] => destruct b end;
      discriminate. }
  destruct (github clean) as [|status body]; simpl.
  - intros [= <-]. simpl. split; [auto|]. split; [|discriminate].
    intros _. split; [reflexivity|]. intros Ha.
    unfold getStatusInfo. simpl. rewrite (Hfalse _ Ha). reflexivity.
  - destruct (status =? 404); [discriminate|].
    destruct ((status =? 403) || (status =? 429)).
    + intros [= <-]. simpl. split; [auto|]. split; [|discriminate].
      intros _. split; [reflexivity|]. intros Ha.
      unfold getStatusInfo. simpl. rewrite (Hfalse _ Ha). reflexivity.
    + destruct (negb (response_ok status)); [discriminate|].
      destruct body as [d|].
      * intros [= <-]. simpl. split; [auto|]. split; [discriminate|].
        intros _. apply Hflag. reflexivity.
      * intros [= <-]. simpl. split; [auto|]. split; [|discriminate].
        intros _. split; [reflexivity|]. intros Ha.
        unfold getStatusInfo. simpl. rewrite (Hfalse _ Ha). reflexivity.
Qed.

Lemma accepted_entry_tier_witness :
  getStatusInfo (fun _ => Some 0)
    (rate_limited_entry (sample_repo "x/busy" "busy") "x/busy") 0 = TierSecure.
Proof.
  destruct (accepted_entry_tier sample_github (fun _ => Some 0)
              (sample_repo "x/busy" "busy")
              (rate_limited_entry (sample_repo "x/busy" "busy") "x/busy") 0 eq_refl)
    as (_ & Hsecure & _).
  apply Hsecure; [reflexivity | discriminate].
Defined.

(** ** Status tiers and relative time *)

Lemma tier_of_days_monotone (d1 d2 : Z) :
  d1 <= d2 -> tier_rank (tier_of_days d1) <= tier_rank (tier_of_days d2).
Proof.
  intros Hle. unfold tier_of_days.
  destruct (Z.leb_spec d1 3), (Z.leb_spec d1 7), (Z.leb_spec d1 30),
    (Z.leb_spec d1 90), (Z.leb_spec d1 180),
    (Z.leb_spec d2 3), (Z.leb_spec d2 7), (Z.leb_spec d2 30),
    (Z.leb_spec d2 90), (Z.leb_spec d2 180); simpl; lia.
Qed.

(** X21: a card never looks fresher as time passes: between two times
    the tier of a repository stays the same or moves towards "offline";
    the tiers "frozen", "secure" and "unknown" do not depend on the time at
    all. *)
Theorem getStatusInfo_ages (parse : string -> option Z) (repo : Repo) (now1 now2 : Z) :
  now1 <= now2 ->
  tier_rank (getStatusInfo parse repo now1) <= tier_rank (getStatusInfo parse repo now2) /\
  (tier_rank (getStatusInfo parse repo now1) = -1 ->
   getStatusInfo parse repo now2 = getStatusInfo parse repo now1).
Proof.
  intros Hle. unfold getStatusInfo.
  destruct (truthy_bool (isArchived repo)); [split; [lia | reflexivity]|].
  destruct (truthy_bool (isRateLimited repo)); [split; [lia | reflexivity]|].
  destruct (negb (truthy_string (lastPushedAt repo))); [split; [lia | reflexivity]|].
  destruct (lastPushedAt repo) as [s|]; [|split; [lia | reflexivity]].
  destruct (parse s) as [t|]; [|split; [lia | reflexivity]].
  cbv zeta. split.
  - apply tier_of_days_monotone.
    apply Z.div_le_mono; lia.
  - intros H. exfalso. revert H. unfold tier_of_days.
    repeat match goal with |- context [if ?b then _ else _] => destruct b end;
      simpl; discriminate.
Qed.

Lemma getStatusInfo_ages_witness :
  tier_rank (getStatusInfo (fun _ => Some 0)
               (mkRepo "a/b" "" "" "" [] (Some "1970-01-01"%string) None None None None) 5)
  <= tier_rank (getStatusInfo (fun _ => Some 0)
                  (mkRepo "a/b" "" "" "" [] (Some "1970-01-01"%string) None None None None)
                  (100 * msPerDay)).
Proof.
  apply (getStatusInfo_ages (fun _ => Some 0)
           (mkRepo "a/b" "" "" "" [] (Some "1970-01-01"%string) None None None None)
           5 (100 * msPerDay)).
  vm_compute. discriminate.
Defined.

Lemma getStatusInfo_of_days parse (repo : Repo) (s : string) (lastPush now : Z) :
  isArchived repo <> Some true -> isRateLimited repo <> Some true ->
  lastPushedAt repo = Some s -> s <> ""%string -> parse s = Some lastPush ->
  getStatusInfo parse repo now = tier_of_days ((now - lastPush) / msPerDay).
Proof.
  intros Ha Hr Hp Hs Hparse.
  assert (Hfalse : forall b : option bool, b <> Some true -> truthy_bool b = false).
  { intros [[|]|] H; [contradiction | reflexivity | reflexivity]. }
  unfold getStatusInfo. rewrite (Hfalse _ Ha), (Hfalse _ Hr), Hp. simpl.
  apply String.eqb_neq in Hs. rewrite Hs. simpl. rewrite Hparse. reflexivity.
Qed.

Lemma div_div_seconds (ms k : Z) : 0 < k -> ms / 1000 / k = ms / (1000 * k).
Proof. intros Hk. rewrite Z.div_div by lia. reflexivity. Qed.

(** X22: the relative time printed on a card. Minutes range over 1..59,
    hours over 1..23, days over 1..29. The card's tier agrees with it: a
    push "just now", or minutes or hours ago, is "critical"; [n] days ago
    has the tier of [n] days; once the date is printed instead, the push
    is at least 30 days old and the tier is "stable" or staler. *)
Theorem formatRelativeTime_agrees_with_tier (parse : string -> option Z) (repo : Repo)
    (s : string) (lastPush now : Z) :
  isArchived repo <> Some true -> isRateLimited repo <> Some true ->
  lastPushedAt repo = Some s -> s <> ""%string -> parse s = Some lastPush ->
  match formatRelativeTime parse (lastPushedAt repo) now with
  | RelNone => False
  | RelJustNow => getStatusInfo parse repo now = TierCritical
  | RelMinutes n => 1 <= n <= 59 /\ getStatusInfo parse repo now = TierCritical
  | RelHours n => 1 <= n <= 23 /\ getStatusInfo parse repo now = TierCritical
  | RelDays n => 1 <= n <= 29 /\ getStatusInfo parse repo now = tier_of_days n
  | RelLocaleDate => 30 <= (now - lastPush) / msPerDay /\
                     2 <= tier_rank (getStatusInfo parse repo now)
  end.
Proof.
  intros Ha Hr Hp Hs Hparse.
  rewrite (getStatusInfo_of_days parse repo s lastPush now Ha Hr Hp Hs Hparse).
  unfold formatRelativeTime. rewrite Hp. simpl.
  apply String.eqb_neq in Hs. rewrite Hs. simpl. rewrite Hparse. cbv zeta.
  set (ms := now - lastPush).
  assert (Hd : ms / msPerDay = ms / 1000 / 86400)
    by (rewrite div_div_seconds by lia; reflexivity).
  pose proof (Z.div_mod (ms / 1000) 60 ltac:(lia)) as E60.
  pose proof (Z.mod_pos_bound (ms / 1000) 60 ltac:(lia)) as B60.
  pose proof (Z.div_mod (ms / 1000) 3600 ltac:(lia)) as E3600.
  pose proof (Z.mod_pos_bound (ms / 1000) 3600 ltac:(lia)) as B3600.
  pose proof (Z.div_mod (ms / 1000) 86400 ltac:(lia)) as E86400.
  pose proof (Z.mod_pos_bound (ms / 1000) 86400 ltac:(lia)) as B86400.
  rewrite Hd.
  destruct (Z.ltb_spec (ms / 1000) 60) as [H1|H1].
  { unfold tier_of_days. destruct (Z.leb_spec (ms / 1000 / 86400) 3); [reflexivity | lia]. }
  destruct (Z.ltb_spec (ms / 1000) 3600) as [H2|H2].
  { split; [lia|]. unfold tier_of_days.
    destruct (Z.leb_spec (ms / 1000 / 86400) 3); [reflexivity | lia]. }
  destruct (Z.ltb_spec (ms / 1000) 86400) as [H3|H3].
  { split; [lia|]. unfold tier_of_days.
    destruct (Z.leb_spec (ms / 1000 / 86400) 3); [reflexivity | lia]. }
  destruct (Z.ltb_spec (ms / 1000) 2592000) as [H4|H4].
  { split; [lia | reflexivity]. }
  split; [lia|]. unfold tier_of_days.
  destruct (Z.leb_spec (ms / 1000 / 86400) 3); [lia|].
  destruct (Z.leb_spec (ms / 1000 / 86400) 7); [lia|].
  repeat match goal with |- context [if ?b then _ else _] => destruct b end; simpl; lia.
Qed.

Lemma formatRelativeTime_agrees_with_tier_witness :
  1 <= 5 <= 29 /\
  getStatusInfo (fun _ => Some 0)
    (mkRepo "a/b" "" "" "" [] (Some "1970-01-01"%string) None None None None)
    (5 * msPerDay + 1) = tier_of_days 5.
Proof.
  exact (formatRelativeTime_agrees_with_tier (fun _ => Some 0)
           (mkRepo "a/b" "" "" "" [] (Some "1970-01-01"%string) None None None None)
           "1970-01-01" 0 (5 * msPerDay + 1)
           ltac:(discriminate) ltac:(discriminate) eq_refl ltac:(discriminate) eq_refl).
Defined.

(** ** Countdown *)

Section CountdownFacts.
Variable tza : Z.





End CountdownFacts.








(** ** Titles *)

Section Titles.
Local Open Scope string_scope.

Lemma split_slash_no_slash (a : string) :
  JsString.includes "/" a = false -> split_slash a = [a].
Proof.
  induction a as [|c a IH]; [reflexivity|].
  cbn [JsString.includes split_slash]. intros H.
  apply orb_false_iff in H as [Hc Ha]. rewrite Hc, (IH Ha). reflexivity.
Qed.

Lemma split_slash_segment (a b : string) :
  JsString.includes "/" a = false ->
  split_slash (a ++ String "/" b) = a :: split_slash b.
Proof.
  induction a as [|c a IH]; [reflexivity|].
  cbn [JsString.includes]. intros H.
  apply orb_false_iff in H as [Hc Ha].
  rewrite JsStringFacts.app_String. cbn [split_slash]. rewrite Hc, (IH Ha). reflexivity.
Qed.

(** X26: the title of a card or of a report entry is the part of the
    name between the first and the second slash - for [owner/repo] the
    [repo] part; a name without a slash, or with nothing after its first
    slash, is shown whole. *)
Theorem short_name_is_repo_part (owner repo : string) :
  JsString.includes "/" owner = false ->
  JsString.includes "/" repo = false ->
  short_name owner = owner /\
  short_name (owner ++ String "/" repo)
  = (if repo =? "" then owner ++ String "/" repo else repo) /\
  (forall rest,
     short_name (owner ++ String "/" (repo ++ String "/" rest))
     = (if repo =? "" then owner ++ String "/" (repo ++ String "/" rest) else repo)).
Proof.
  intros Ho Hr. unfold short_name. split; [|split].
  - rewrite (split_slash_no_slash owner Ho). reflexivity.
  - rewrite (split_slash_segment owner repo Ho), (split_slash_no_slash repo Hr).
    reflexivity.
  - intros rest.
    rewrite (split_slash_segment owner _ Ho), (split_slash_segment repo rest Hr).
    reflexivity.
Qed.

Lemma short_name_is_repo_part_witness :
  short_name "facebook/react" = "react" /\ short_name "a/b/c" = "b".
Proof.
  split.
  - apply (short_name_is_repo_part "facebook" "react"); reflexivity.
  - destruct (short_name_is_repo_part "a" "b" eq_refl eq_refl) as (_ & _ & H).
    apply (H "c").
Defined.

End Titles.

(** ** Locating the JSON array *)

Section ArrayExtraction.
Local Open Scope string_scope.

Example remove_code_fences_example :
  remove_code_fences (String "010" "```json" ++ String "010" "[1]" ++ String "010" "```")
  = "[1]".
Proof. reflexivity. Qed.

Lemma indexOf_None c s : indexOf c s = None <-> JsString.includes c s = false.
Proof.
  induction s as [|b s IH]; cbn [indexOf JsString.includes]; [tauto|].
  destruct (Ascii.eqb b c); simpl; [split; discriminate|].
  rewrite <- IH. destruct (indexOf c s); simpl; split; congruence.
Qed.

Lemma lastIndexOf_None c s : lastIndexOf c s = None <-> JsString.includes c s = false.
Proof.
  induction s as [|b s IH]; cbn [lastIndexOf JsString.includes]; [tauto|].
  destruct (lastIndexOf c s).
  - split; [discriminate|]. intros H. apply orb_false_iff in H as [_ H].
    apply IH in H. discriminate.
  - destruct (Ascii.eqb b c); simpl; [split; discriminate|].
    split; [intros _; apply IH; reflexivity | reflexivity].
Qed.

Lemma indexOf_first c pre rest :
  JsString.includes c pre = false ->
  indexOf c (pre ++ String c rest) = Some (String.length pre).
Proof.
  induction pre as [|b pre IH]; intros H.
  - change (indexOf c (String c rest) = Some O). cbn [indexOf].
    rewrite Ascii.eqb_refl. reflexivity.
  - cbn [JsString.includes] in H. apply orb_false_iff in H as [Hb H].
    rewrite JsStringFacts.app_String. cbn [indexOf String.length].
    rewrite Hb, (IH H). reflexivity.
Qed.

Lemma lastIndexOf_last c pre post :
  JsString.includes c post = false ->
  lastIndexOf c (pre ++ String c post) = Some (String.length pre).
Proof.
  intros H. induction pre as [|b pre IH].
  - change (lastIndexOf c (String c post) = Some O). cbn [lastIndexOf].
    apply lastIndexOf_None in H. rewrite H, Ascii.eqb_refl. reflexivity.
  - rewrite JsStringFacts.app_String. cbn [lastIndexOf String.length].
    rewrite IH. reflexivity.
Qed.

Lemma substring_middle pre mid post :
  String.substring (String.length pre) (String.length mid) (pre ++ mid ++ post) = mid.
Proof.
  induction pre as [|b pre IH].
  - change (String.substring 0 (String.length mid) (mid ++ post) = mid).
    induction mid as [|m mid IHm]; [destruct post; reflexivity|].
    rewrite JsStringFacts.app_String. cbn [String.length String.substring].
    rewrite IHm. reflexivity.
  - rewrite JsStringFacts.app_String. cbn [String.length String.substring]. exact IH.
Qed.

Lemma append_assoc (a b c : string) : (a ++ b) ++ c = a ++ b ++ c.
Proof.
  induction a as [|x a IH]; [reflexivity|].
  rewrite !JsStringFacts.app_String, IH. reflexivity.
Qed.

Lemma includes_app c a b :
  JsString.includes c (a ++ b) = JsString.includes c a || JsString.includes c b.
Proof.
  induction a as [|x a IH]; [reflexivity|].
  rewrite JsStringFacts.app_String. cbn [JsString.includes].
  rewrite IH, orb_assoc. reflexivity.
Qed.

(** X27: locating the array. With no [[] or no []] in the text nothing is
    extracted. When the first [[] comes before the last []], exactly the
    stretch from the one to the other is extracted, brackets included,
    whatever surrounds it. When the only []] of the text come before the
    first [[], what is extracted is the text between them, without any
    bracket - the case is not detected at this step. *)
Theorem extract_array_cases (text : string) :
  (extract_array text = None <->
     JsString.includes "[" text = false \/ JsString.includes "]" text = false) /\
  (forall pre mid post,
     text = pre ++ String "[" (mid ++ String "]" post) ->
     JsString.includes "[" pre = false -> JsString.includes "]" post = false ->
     extract_array text = Some (String "[" (mid ++ "]"))) /\
  (forall pre mid post,
     text = pre ++ String "]" (mid ++ String "[" post) ->
     JsString.includes "[" pre = false -> JsString.includes "[" mid = false ->
     JsString.includes "]" mid = false -> JsString.includes "]" post = false ->
     extract_array text = Some mid).
Proof.
  split; [|split].
  - unfold extract_array. rewrite <- indexOf_None, <- lastIndexOf_None.
    destruct (indexOf "[" text), (lastIndexOf "]" text); split;
      try discriminate; auto.
    intros [H | H]; discriminate.
  - intros pre mid post -> Hpre Hpost. unfold extract_array.
    rewrite (indexOf_first "[" pre _ Hpre).
    assert (Hlast : lastIndexOf "]" (pre ++ String "[" (mid ++ String "]" post))
                    = Some (String.length pre + 1 + String.length mid)%nat).
    { replace (pre ++ String "[" (mid ++ String "]" post))
        with ((pre ++ String "[" mid) ++ String "]" post).
      - rewrite (lastIndexOf_last "]" _ post Hpost).
        rewrite JsStringFacts.length_app. simpl. f_equal. lia.
      - rewrite append_assoc. reflexivity. }
    rewrite Hlast. f_equal. unfold js_substring.
    replace (Nat.min (String.length pre) (String.length pre + 1 + String.length mid + 1))
      with (String.length pre) by lia.
    replace (Nat.max (String.length pre) (String.length pre + 1 + String.length mid + 1)
             - String.length pre)%nat
      with (String.length (String "[" (mid ++ "]"))).
    2:{ cbn [String.length]. rewrite JsStringFacts.length_app. simpl. lia. }
    replace (pre ++ String "[" (mid ++ String "]" post))
      with (pre ++ String "[" (mid ++ "]") ++ post).
    + apply substring_middle.
    + f_equal. rewrite JsStringFacts.app_String. f_equal.
      rewrite append_assoc. reflexivity.
  - intros pre mid post -> Hpre Hmid1 Hmid2 Hpost. unfold extract_array.
    assert (Hfirst : indexOf "[" (pre ++ String "]" (mid ++ String "[" post))
                     = Some (String.length pre + 1 + String.length mid)%nat).
    { replace (pre ++ String "]" (mid ++ String "[" post))
        with ((pre ++ String "]" mid) ++ String "[" post).
      - rewrite indexOf_first.
        + rewrite JsStringFacts.length_app. simpl. f_equal. lia.
        + rewrite includes_app. cbn [JsString.includes]. rewrite Hpre, Hmid1. reflexivity.
      - rewrite append_assoc. reflexivity. }
    rewrite Hfirst.
    rewrite lastIndexOf_last.
    2:{ rewrite includes_app. cbn [JsString.includes]. rewrite Hmid2, Hpost. reflexivity. }
    f_equal. unfold js_substring.
    replace (Nat.min (String.length pre + 1 + String.length mid) (String.length pre + 1))
      with (String.length (pre ++ "]")) by (rewrite JsStringFacts.length_app; simpl; lia).
    replace (Nat.max (String.length pre + 1 + String.length mid) (String.length pre + 1)
             - String.length (pre ++ "]"))%nat
      with (String.length mid) by (rewrite JsStringFacts.length_app; simpl; lia).
    replace (pre ++ String "]" (mid ++ String "[" post))
      with ((pre ++ "]") ++ mid ++ String "[" post).
    + apply substring_middle.
    + rewrite append_assoc. reflexivity.
Qed.

Lemma extract_array_cases_witness :
  extract_array "Here: [1, 2] done" = Some "[1, 2]" /\
  extract_array "] oops [" = Some " oops ".
Proof.
  split.
  - destruct (extract_array_cases "Here: [1, 2] done") as (_ & H & _).
    apply (H "Here: " "1, 2" " done"); reflexivity.
  - destruct (extract_array_cases "] oops [") as (_ & _ & H).
    apply (H "" " oops " ""); reflexivity.
Defined.


















End ArrayExtraction.
